(** * Parking violation system: per-track state machine, evidence capture, report

    A shallow embedding of [park_ihlal.py] (class [ParkingViolationSystem] and
    the Streamlit script around it), and the properties of its per-vehicle
    check, its evidence capture, its reset action and its report generator.

    Modelling choices, all read off the source:
    - pixel coordinates, track ids, class ids and counters are Python / numpy
      integers: [Z];
    - [self.violation_tracker] is a dict: [gmap Z Z]; the penalized ids are a
      Python set: [gset Z]; the violation log is a list of dicts with five
      fixed keys: a list of records;
    - [st.session_state] outlives a script run, the [ParkingViolationSystem]
      instance does not: the script builds a new one at every run;
    - what the code draws on the frame or shows in the UI is an event trace;
    - the detector, [cv2.pointPolygonTest], the clock and the spreadsheet
      writer are external: they are parameters of the model. *)

From Stdlib Require Import ZArith QArith.
From stdpp Require Import base gmap strings pretty list.

Open Scope Z_scope.

(** ** Data *)

Definition point : Type := Z * Z.
Definition polygon : Type := list point.
(** [box] is [(x1, y1, x2, y2)] in pixels. *)
Definition Box : Type := Z * Z * Z * Z.
Definition color : Type := Z * Z * Z.

(** One entry of [st.session_state.violation_log]. *)
Record ViolationRecord := {
  Vehicle_ID : Z;
  Vehicle_Type : string;
  Timestamp : string;
  Status : string;
  Evidence : string
}.

(** The two keys of [st.session_state] the program owns. *)
Record SessionState := {
  violation_log : list ViolationRecord;
  penalized_ids : gset Z
}.

(** [st.session_state] as a script run finds it: a key may be missing. *)
Record RawSession := {
  raw_violation_log : option (list ViolationRecord);
  raw_penalized_ids : option (gset Z)
}.

(** The attributes of a [ParkingViolationSystem] instance. *)
Record System := {
  model_path : string;
  evidence_folder : string;
  excel_name : string;
  tolerance : Q;
  violation_threshold : Z;
  min_box_height : Z;
  names : gmap Z string;
  violation_tracker : gmap Z Z
}.

Record World := {
  self : System;
  session_state : SessionState
}.

(** What a call leaves on the frame, on disk and in the UI. *)
Inductive event :=
  | Rectangle (p1 p2 : point) (c : color) (thickness : Z)
  | PutText (text : string) (org : point) (c : color)
  | Imwrite (path : string) (rows cols : Z)
  | PlaceholderImage (caption : string)
  | Toast (msg : string)
  | StWarning (msg : string)
  | StInfo (msg : string)
  | StSuccess (msg : string)
  | StDownloadButton (label : string) (data : list Byte.byte) (file_name mime : string)
  | StDataframe (df : list ViolationRecord)
  | StError (msg : string).

(** How a call ends: it returns, or an exception leaves it. *)
Inductive outcome :=
  | Returned
  | Raised (exc : string).

(** The frame is always resized to 1280 x 720 before it is analysed. *)
Definition FRAME_W : Z := 1280.
Definition FRAME_H : Z := 720.

(** ** Slicing, as Python and numpy do it for a step of 1 *)

Definition slice_index (n i : Z) : Z :=
  if i <? 0 then Z.max 0 (i + n) else Z.min i n.

Definition slice_len (n start stop : Z) : Z :=
  Z.max 0 (slice_index n stop - slice_index n start).

(** [crop.size] of [frame[max(0,y1):min(720,y2), max(0,x1):min(1280,x2)]]
    for a frame of three channels. *)
Definition crop_rows (box : Box) : Z :=
  let '(x1, y1, x2, y2) := box in
  slice_len FRAME_H (Z.max 0 y1) (Z.min 720 y2).

Definition crop_cols (box : Box) : Z :=
  let '(x1, y1, x2, y2) := box in
  slice_len FRAME_W (Z.max 0 x1) (Z.min 1280 x2).

Definition crop_size (box : Box) : Z := crop_rows box * crop_cols box * 3.

(** ** Labels and file names (the f-strings of the source) *)

Definition label_penalized (vehicle_type : string) (track_id : Z) : string :=
  vehicle_type +:+ " " +:+ pretty track_id +:+ ": PENALIZED".

Definition label_clean (vehicle_type : string) (track_id : Z) : string :=
  vehicle_type +:+ " " +:+ pretty track_id +:+ ": Clean".

Definition label_violation (vehicle_type : string) (track_id : Z) : string :=
  vehicle_type +:+ " " +:+ pretty track_id +:+ ": VIOLATION!".

Definition label_analyzing (vehicle_type : string) (track_id remaining : Z) : string :=
  vehicle_type +:+ " " +:+ pretty track_id +:+ ": Analyzing (" +:+ pretty remaining +:+ ")".

Definition img_name_of (v_type : string) (track_id : Z) : string :=
  v_type +:+ "_" +:+ pretty track_id +:+ ".jpg".

(** The box and the label drawn at the end of a check. *)
Definition draw (box : Box) (c : color) (label : string) : list event :=
  let '(x1, y1, x2, y2) := box in
  [Rectangle (x1, y1) (x2, y2) c 2; PutText label (x1, y1 - 10) c].

(** ** The class *)

Section ParkingViolationSystem.

(** [cv2.pointPolygonTest(poly, pt, True)]: the signed distance of [pt] to
    the contour [poly], positive inside, negative outside, zero on an edge.
    The value is a finite double, read here as the rational it denotes. *)
Variable pointPolygonTest : polygon -> point -> Q.

(** [self.model.names] of the model that [YOLO(self.model_path)] loads. *)
Variable model_names : gmap Z string.

(** *** [__init__] *)

Definition __init__ (model_path_arg evidence_folder_arg : string)
    (st : RawSession) : World :=
  {| self := {| model_path := model_path_arg;
                evidence_folder := evidence_folder_arg;
                excel_name := "Parking_Violation_Report.xlsx";
                tolerance := 5.0;
                violation_threshold := 15;
                min_box_height := 50;
                names := model_names;
                violation_tracker := ∅ |};
     session_state :=
       {| violation_log := default [] (raw_violation_log st);
          penalized_ids := default ∅ (raw_penalized_ids st) |} |}.

(** *** [clear_system]

    The two assignments; the method then calls [st.rerun()], which ends the
    script run: see [reset_action] below. *)
Definition clear_system (w : World) : World :=
  {| self := self w;
     session_state := {| violation_log := []; penalized_ids := ∅ |} |}.

(** *** Road membership: the loop of [_check_vehicle] over the polygons *)

Fixpoint on_road_loop (tol : Q) (road_polygons : list polygon)
    (center : point) : bool :=
  match road_polygons with
  | [] => false
  | poly :: rest =>
      if Qle_bool tol (pointPolygonTest poly center) then true
      else on_road_loop tol rest center
  end.

(** *** [_log_violation] *)

Definition _log_violation (w : World) (now : string) (box : Box)
    (track_id : Z) (v_type : string) : list event * World :=
  let ss := session_state w in
  let penalized := {[ track_id ]} ∪ penalized_ids ss in
  if 0 <? crop_size box then
    let img_name := img_name_of v_type track_id in
    let full_path := evidence_folder (self w) +:+ "/" +:+ img_name in
    let rec := {| Vehicle_ID := track_id;
                  Vehicle_Type := v_type;
                  Timestamp := now;
                  Status := "ILLEGAL PARKING";
                  Evidence := img_name |} in
    ([Imwrite full_path (crop_rows box) (crop_cols box);
      PlaceholderImage (v_type +:+ " " +:+ pretty track_id +:+ " Violation");
      Toast (v_type +:+ " " +:+ pretty track_id +:+ " reported!")],
     {| self := self w;
        session_state := {| violation_log := violation_log ss ++ [rec];
                            penalized_ids := penalized |} |})
  else
    ([], {| self := self w;
            session_state := {| violation_log := violation_log ss;
                                penalized_ids := penalized |} |}).

(** *** [_check_vehicle] *)

Definition set_tracker (w : World) (t : gmap Z Z) : World :=
  {| self := {| model_path := model_path (self w);
                evidence_folder := evidence_folder (self w);
                excel_name := excel_name (self w);
                tolerance := tolerance (self w);
                violation_threshold := violation_threshold (self w);
                min_box_height := min_box_height (self w);
                names := names (self w);
                violation_tracker := t |};
     session_state := session_state w |}.

(** [if track_id not in self.violation_tracker: self.violation_tracker[track_id] = 0] *)
Definition ensure_counter (track_id : Z) (t : gmap Z Z) : gmap Z Z :=
  match t !! track_id with
  | None => <[track_id := 0]> t
  | Some _ => t
  end.

Definition center_of (box : Box) : point :=
  let '(x1, y1, x2, y2) := box in (Z.quot (x1 + x2) 2, y2).

Definition box_height (box : Box) : Z :=
  let '(x1, y1, x2, y2) := box in y2 - y1.

Definition _check_vehicle (w : World) (now : string) (box : Box)
    (track_id cls_id min_h : Z) (road_polygons : list polygon)
    : outcome * list event * World :=
  (* Size Filter *)
  if box_height box <? min_h then (Returned, [], w)
  else
    let center := center_of box in
    match names (self w) !! cls_id with
    | None => (Raised "KeyError", [], w)
    | Some vehicle_type =>
        (* Already Penalized? *)
        if decide (track_id ∈ penalized_ids (session_state w)) then
          (Returned, draw box (255, 0, 0) (label_penalized vehicle_type track_id), w)
        else
          (* Is on Road? *)
          let on_road := on_road_loop (tolerance (self w)) road_polygons center in
          (* Counter Logic *)
          let t0 := ensure_counter track_id (violation_tracker (self w)) in
          if on_road then
            (Returned,
             draw box (0, 255, 0) (label_clean vehicle_type track_id),
             set_tracker w (<[track_id := 0]> t0))
          else
            let counter := default 0 (t0 !! track_id) + 1 in
            let w1 := set_tracker w (<[track_id := counter]> t0) in
            (* Violation Moment *)
            if violation_threshold (self w) <? counter then
              let '(evs, w2) := _log_violation w1 now box track_id vehicle_type in
              (Returned,
               evs ++ draw box (255, 0, 0) (label_violation vehicle_type track_id),
               w2)
            else
              let remaining := violation_threshold (self w) - counter in
              (Returned,
               draw box (0, 255, 255) (label_analyzing vehicle_type track_id remaining),
               w1)
    end.

(** *** The script around the class

    Every script run executes
    [system = ParkingViolationSystem(model_path='best.pt')]: a new
    instance, over the session state the previous run left. *)

Definition persist (ss : SessionState) : RawSession :=
  {| raw_violation_log := Some (violation_log ss);
     raw_penalized_ids := Some (penalized_ids ss) |}.

Definition first_visit : RawSession :=
  {| raw_violation_log := None; raw_penalized_ids := None |}.

Definition script_start (st : RawSession) : World :=
  __init__ "best.pt" "evidence" st.

Definition script_rerun (w : World) : World :=
  script_start (persist (session_state w)).

(** The reset button: [system.clear_system()], whose [st.rerun()] hands
    control back to the top of the script. *)
Definition reset_action (w : World) : World :=
  script_rerun (clear_system w).

End ParkingViolationSystem.

(** ** [generate_report] *)

(** What an external call inside the [try] block gives: a value, or an
    [Exception] with its message. *)
Inductive attempt (A : Type) :=
  | Done (a : A)
  | Throws (e : string).
Arguments Done {A} a.
Arguments Throws {A} e.

(** [try: body except Exception as e: handler(e)] over an event trace. *)
Definition try_except (body : outcome * list event)
    (handler : string -> list event) : outcome * list event :=
  match body with
  | (Raised e, evs) => (Returned, evs ++ handler e)
  | (Returned, evs) => (Returned, evs)
  end.

Section Report.

(** The workbook being written, an opaque value of the spreadsheet library. *)
Variable workbook : Type.

(** [io.BytesIO()], [pd.ExcelWriter(...)], [df.to_excel(...)] and the three
    [set_column] calls. *)
Variable write_sheet : list ViolationRecord -> attempt workbook.

(** The loop that embeds the evidence images found on disk, and the close
    of the writer on leaving the [with] block; gives the buffer's bytes. *)
Variable embed_images : workbook -> string -> list ViolationRecord -> attempt (list Byte.byte).

Definition XLSX_MIME : string :=
  "application/vnd.openxmlformats-officedocument.spreadsheetml.sheet".

(** The body of the [try] block. *)
Definition report_body (w : World) (df : list ViolationRecord)
    : outcome * list event :=
  match write_sheet df with
  | Throws e => (Raised e, [])
  | Done wb =>
      let info := StInfo "Embedding images into Excel..." in
      match embed_images wb (evidence_folder (self w)) df with
      | Throws e => (Raised e, [info])
      | Done buffer =>
          (Returned,
           [info;
            StSuccess ("✅ Total " +:+ pretty (Z.of_nat (length df)) +:+ " violations reported.");
            StDownloadButton "📥 Download Report with Images" buffer
              (excel_name (self w)) XLSX_MIME;
            StDataframe df])
      end
  end.

(** A call inside the [try] block raises [e]. *)
Definition serialization_raises (w : World) (e : string) : Prop :=
  let df := violation_log (session_state w) in
  write_sheet df = Throws e \/
  exists wb, write_sheet df = Done wb /\
    embed_images wb (evidence_folder (self w)) df = Throws e.

Definition generate_report (w : World) : outcome * list event :=
  match violation_log (session_state w) with
  | [] => (Returned, [StWarning "No violations recorded yet."])
  | _ :: _ =>
      let df := violation_log (session_state w) in
      try_except (report_body w df) (fun e => [StError ("Excel Error: " +:+ e)])
  end.

End Report.

Definition is_download (ev : event) : Prop :=
  match ev with
  | StDownloadButton _ _ _ _ => True
  | _ => False
  end.

(** ** A session: what can happen to the state, step by step *)

(** [Check]: the frame loop calls [_check_vehicle] for a vehicle detection;
    [Rerun]: the script runs again (any widget interaction);
    [Reset]: the reset button. *)
Inductive action :=
  | Check (now : string) (box : Box) (track_id cls_id min_h : Z)
      (road_polygons : list polygon)
  | Rerun
  | Reset.

Section Session.

Variable pointPolygonTest : polygon -> point -> Q.
Variable model_names : gmap Z string.

Definition do_action (w : World) (a : action) : World :=
  match a with
  | Check now box track_id cls_id min_h road_polygons =>
      (_check_vehicle pointPolygonTest w now box track_id cls_id min_h road_polygons).2
  | Rerun => script_rerun model_names w
  | Reset => reset_action model_names w
  end.

Definition run (acts : list action) (w : World) : World :=
  foldl do_action w acts.

(** The worlds a check can leave behind when it touches the counter. *)
Definition counter_of (w : World) (id : Z) : Z :=
  default 0 (violation_tracker (self w) !! id).

Definition after_clean (w : World) (id : Z) : World :=
  set_tracker w (<[id := 0]> (ensure_counter id (violation_tracker (self w)))).

Definition after_count (w : World) (id : Z) : World :=
  set_tracker w
    (<[id := counter_of w id + 1]> (ensure_counter id (violation_tracker (self w)))).

(** The paths through [_check_vehicle], in the order of the source: the size
    filter, the class name lookup, the penalized test, then the counter. *)
Inductive check_path (w : World) (now : string) (box : Box)
    (id cls min_h : Z) (polys : list polygon)
    : outcome * list event * World -> Prop :=
  | path_filtered :
      box_height box < min_h ->
      check_path w now box id cls min_h polys (Returned, [], w)
  | path_unknown_class :
      min_h <= box_height box ->
      names (self w) !! cls = None ->
      check_path w now box id cls min_h polys (Raised "KeyError", [], w)
  | path_penalized vt :
      min_h <= box_height box ->
      names (self w) !! cls = Some vt ->
      id ∈ penalized_ids (session_state w) ->
      check_path w now box id cls min_h polys
        (Returned, draw box (255, 0, 0) (label_penalized vt id), w)
  | path_clean vt :
      min_h <= box_height box ->
      names (self w) !! cls = Some vt ->
      id ∉ penalized_ids (session_state w) ->
      on_road_loop pointPolygonTest (tolerance (self w)) polys (center_of box) = true ->
      check_path w now box id cls min_h polys
        (Returned, draw box (0, 255, 0) (label_clean vt id), after_clean w id)
  | path_analyzing vt :
      min_h <= box_height box ->
      names (self w) !! cls = Some vt ->
      id ∉ penalized_ids (session_state w) ->
      on_road_loop pointPolygonTest (tolerance (self w)) polys (center_of box) = false ->
      counter_of w id + 1 <= violation_threshold (self w) ->
      check_path w now box id cls min_h polys
        (Returned,
         draw box (0, 255, 255)
           (label_analyzing vt id (violation_threshold (self w) - (counter_of w id + 1))),
         after_count w id)
  | path_violation vt :
      min_h <= box_height box ->
      names (self w) !! cls = Some vt ->
      id ∉ penalized_ids (session_state w) ->
      on_road_loop pointPolygonTest (tolerance (self w)) polys (center_of box) = false ->
      violation_threshold (self w) < counter_of w id + 1 ->
      check_path w now box id cls min_h polys
        (Returned,
         (_log_violation (after_count w id) now box id vt).1
           ++ draw box (255, 0, 0) (label_violation vt id),
         (_log_violation (after_count w id) now box id vt).2).

(** The states a session can be in. *)
Definition reachable (w : World) : Prop :=
  exists acts, w = run acts (script_start model_names first_visit).

End Session.

Definition is_check (a : action) : Prop :=
  match a with Check _ _ _ _ _ _ => True | _ => False end.

Definition is_rerun (a : action) : bool :=
  match a with Rerun => true | _ => false end.

(** The evidence crop of a check is not empty. *)
Definition crop_nonempty (a : action) : Prop :=
  match a with
  | Check _ box _ _ _ _ => 0 < crop_size box
  | _ => True
  end.

(** A check of track [id] that passes the size filter, knows the class and
    finds the ground-contact point off every road polygon. *)
Definition observed_off_road (ppt : polygon -> point -> Q) (s : System)
    (id : Z) (a : action) : Prop :=
  match a with
  | Check _ box track_id cls_id min_h road_polygons =>
      track_id = id /\ min_h <= box_height box /\
      is_Some (names s !! cls_id) /\
      on_road_loop ppt (tolerance s) road_polygons (center_of box) = false
  | _ => False
  end.

Definition has_record (id : Z) (log : list ViolationRecord) : Prop :=
  exists r, r ∈ log /\ Vehicle_ID r = id.

Definition count_records (id : Z) (log : list ViolationRecord) : nat :=
  length (filter (fun r => Vehicle_ID r = id) log).

(** What every state of a session satisfies. *)
Record session_inv (w : World) : Prop := {
  inv_threshold : 0 <= violation_threshold (self w);
  inv_sound : forall r, r ∈ violation_log (session_state w) ->
                Vehicle_ID r ∈ penalized_ids (session_state w);
  inv_unique : NoDup (Vehicle_ID <$> violation_log (session_state w));
  inv_bounded : forall id, id ∉ penalized_ids (session_state w) ->
                  counter_of w id <= violation_threshold (self w)
}.

(** Every penalized id has its record. *)
Definition log_complete (w : World) : Prop :=
  forall id, id ∈ penalized_ids (session_state w) ->
    has_record id (violation_log (session_state w)).

(** ** A scene for the worked examples *)

(** The signed distance of a point to the bounding rectangle of a contour,
    positive inside. It is the contour's own signed distance when the contour
    is an axis-parallel rectangle and the point lies inside it or straight
    beside one of its sides; beyond a corner it is rounded down to a whole
    pixel, and an empty contour gives the most negative double. *)
Definition rect_signed_distance (poly : polygon) (pt : point) : Q :=
  match poly with
  | [] => inject_Z (- (2 ^ 1024 - 2 ^ 971))
  | (x0, y0) :: rest =>
      let xa := foldr (fun p acc => Z.min p.1 acc) x0 rest in
      let xb := foldr (fun p acc => Z.max p.1 acc) x0 rest in
      let ya := foldr (fun p acc => Z.min p.2 acc) y0 rest in
      let yb := foldr (fun p acc => Z.max p.2 acc) y0 rest in
      let dx := Z.max (xa - pt.1) (pt.1 - xb) in
      let dy := Z.max (ya - pt.2) (pt.2 - yb) in
      if (dx <=? 0) && (dy <=? 0) then inject_Z (Z.min (- dx) (- dy))
      else if dx <=? 0 then inject_Z (- dy)
      else if dy <=? 0 then inject_Z (- dx)
      else inject_Z (- Z.sqrt (dx * dx + dy * dy))
  end.

(** A model with a road class and a car class. *)
Definition demo_names : gmap Z string := {[ 0 := "road"; 1 := "car" ]}.

(** The road fills the lower part of the frame, from row 400 down. *)
Definition demo_road : polygon := [(0, 400); (1280, 400); (1280, 720); (0, 720)].

(** A car standing on the road: ground contact at (650, 500). *)
Definition box_on_road : Box := (600, 300, 700, 500).
(** A car two pixels above the road edge: ground contact at (650, 398). *)
Definition box_near_road : Box := (600, 200, 700, 398).
(** A car far from the road: ground contact at (650, 250). *)
Definition box_off_road : Box := (600, 100, 700, 250).
(** A box forty pixels high. *)
Definition box_small : Box := (600, 210, 700, 250).
(** A box with no width, as truncation to whole pixels can leave it. *)
Definition box_no_width : Box := (640, 100, 640, 250).

Definition demo_start : World := script_start demo_names first_visit.

Definition demo_check (box : Box) : action :=
  Check "2024-01-01 12:00:00" box 7 1 50 [demo_road].

(** The session after sixteen frames with the car two pixels off the road,
    and after sixteen frames with a car whose box has no width. *)
Definition demo_penalized : World :=
  run rect_signed_distance demo_names (replicate 16 (demo_check box_near_road)) demo_start.

Definition demo_no_evidence : World :=
  run rect_signed_distance demo_names (replicate 16 (demo_check box_no_width)) demo_start.

(** The session after ten, and after fifteen, frames with the car far from
    the road. *)
Definition demo_analyzing : World :=
  run rect_signed_distance demo_names (replicate 10 (demo_check box_off_road)) demo_start.

Definition demo_fifteen : World :=
  run rect_signed_distance demo_names (replicate 15 (demo_check box_off_road)) demo_start.

(** A spreadsheet writer that fails when the images are embedded. *)
Definition demo_write_sheet (df : list ViolationRecord) : attempt unit := Done tt.

Definition demo_embed_images (wb : unit) (folder : string)
    (df : list ViolationRecord) : attempt (list Byte.byte) :=
  Throws "No space left on device".

(** ** The classes of the model: [self.road_ids] and [self.vehicle_ids] *)

(** [str.lower] on a class name: the ASCII capitals become small letters,
    every other byte stays (class names are ASCII). *)
Definition lower_ascii (c : Ascii.ascii) : Ascii.ascii :=
  let n := Ascii.N_of_ascii c in
  if ((65 <=? n) && (n <=? 90))%N then Ascii.ascii_of_N (n + 32) else c.

Fixpoint lower (s : string) : string :=
  match s with
  | EmptyString => EmptyString
  | String c rest => String (lower_ascii c) (lower rest)
  end.

(** Python's [needle in hay] on strings. *)
Fixpoint contains (needle hay : string) : bool :=
  String.prefix needle hay ||
  match hay with
  | EmptyString => false
  | String _ rest => contains needle rest
  end.

Definition is_road_name (v : string) : bool :=
  contains "road" (lower v) || contains "yol" (lower v).

Definition is_vehicle_name (v : string) : bool :=
  contains "car" (lower v) || contains "vehicle" (lower v) ||
  contains "truck" (lower v) || contains "bus" (lower v).

(** The two comprehensions of [__init__] over [self.names.items()]. Only
    membership in the result is ever used, so the order of the keys does
    not matter. *)
Definition road_ids (names : gmap Z string) : list Z :=
  (filter (fun kv => is_road_name kv.2 = true) (map_to_list names)).*1.

Definition matching_vehicle_ids (names : gmap Z string) : list Z :=
  (filter (fun kv => is_vehicle_name kv.2 = true) (map_to_list names)).*1.

(** [if not self.vehicle_ids: self.vehicle_ids = [0, 1, 2, 3]] *)
Definition vehicle_ids (names : gmap Z string) : list Z :=
  match matching_vehicle_ids names with
  | [] => [0; 1; 2; 3]
  | ids => ids
  end.

(** ** [process_video] *)

(** What [self.model.track(...)[0]] gives for a frame: [results.boxes] with
    its boxes (already cast to int), classes and, when tracking succeeded,
    track ids; [results.masks.xy] (already cast to int32) when there are
    masks. *)
Record Boxes := {
  boxes_xyxy : list Box;
  boxes_cls : list Z;
  boxes_id : option (list Z)
}.

Record Results := {
  masks_xy : option (list polygon);
  boxes : option Boxes
}.

(** A frame read from the video: what the tracker gives for it ([None]
    when the call raises) and the clock at the i-th detection of the frame. *)
Record Frame := {
  track : option Results;
  now_at : nat -> string
}.

(** What the loop does to a frame: a road polygon drawn and filled, the
    events of a vehicle check, the frame shown. *)
Inductive video_event :=
  | RoadDrawn (pts : polygon)
  | VehicleChecked (evs : list event)
  | FrameShown.

(** [for i, c in enumerate(results.boxes.cls)]: the polygons of the road
    classes, up to an index that [results.masks.xy] does not have. *)
Fixpoint road_loop (road : list Z) (m : list polygon) (i : nat)
    (clss : list Z) : outcome * list polygon :=
  match clss with
  | [] => (Returned, [])
  | c :: rest =>
      if bool_decide (c ∈ road) then
        match m !! i with
        | None => (Raised "IndexError", [])
        | Some pts =>
            let '(o, ps) := road_loop road m (S i) rest in (o, pts :: ps)
        end
      else road_loop road m (S i) rest
  end.

Definition find_roads (road : list Z) (res : Results) : outcome * list polygon :=
  match masks_xy res with
  | None => (Returned, [])
  | Some m =>
      match boxes res with
      | None => (Raised "AttributeError", [])
      | Some b => road_loop road m 0 (boxes_cls b)
      end
  end.

Section ProcessVideo.

Variable pointPolygonTest : polygon -> point -> Q.

(** [for box, track_id, cls_id in zip(boxes, ids, clss)] *)
Fixpoint vehicles_loop (w : World) (now_of : nat -> string) (min_h : Z)
    (road_polygons : list polygon) (vehicle : list Z) (i : nat)
    (dets : list (Box * (Z * Z))) : outcome * list video_event * World :=
  match dets with
  | [] => (Returned, [], w)
  | (box, (track_id, cls_id)) :: rest =>
      if bool_decide (cls_id ∈ vehicle) then
        let '(o, evs, w1) :=
          _check_vehicle pointPolygonTest w (now_of i) box track_id cls_id
            min_h road_polygons in
        match o with
        | Raised e => (Raised e, [VehicleChecked evs], w1)
        | Returned =>
            let '(o2, evs2, w2) :=
              vehicles_loop w1 now_of min_h road_polygons vehicle (S i) rest in
            (o2, VehicleChecked evs :: evs2, w2)
        end
      else vehicles_loop w now_of min_h road_polygons vehicle (S i) rest
  end.

(** The detections of a frame that carry a track id. *)
Definition tracked_detections (res : Results) : list (Box * (Z * Z)) :=
  match boxes res with
  | None => []
  | Some b =>
      match boxes_id b with
      | None => []
      | Some ids => zip (boxes_xyxy b) (zip ids (boxes_cls b))
      end
  end.

(** The body of the loop for a frame the tracker handled, up to the display. *)
Definition analyze_frame (w : World) (res : Results) (now_of : nat -> string)
    (min_h : Z) : outcome * list video_event * World :=
  match find_roads (road_ids (names (self w))) res with
  | (Raised e, drawn) => (Raised e, RoadDrawn <$> drawn, w)
  | (Returned, road_polygons) =>
      let '(o, evs, w') :=
        vehicles_loop w now_of min_h road_polygons
          (vehicle_ids (names (self w))) 0 (tracked_detections res) in
      (o, (RoadDrawn <$> road_polygons) ++ evs, w')
  end.

(** The frames the capture still has to give. *)
Fixpoint frames_loop (w : World) (min_h : Z) (frames : list Frame)
    : outcome * list video_event * World :=
  match frames with
  | [] => (Returned, [], w)
  | f :: rest =>
      match track f with
      | None => frames_loop w min_h rest
      | Some res =>
          let '(o, evs, w1) := analyze_frame w res (now_at f) min_h in
          match o with
          | Raised e => (Raised e, evs, w1)
          | Returned =>
              let '(o2, evs2, w2) := frames_loop w1 min_h rest in
              (o2, evs ++ FrameShown :: evs2, w2)
          end
      end
  end.

(** [opened]: what [cap.isOpened()] says; [stop_btn]: the stop button of
    this script run; [frames]: what [cap.read()] gives until it fails. *)
Definition process_video (w : World) (opened stop_btn : bool) (min_h : Z)
    (frames : list Frame) : outcome * list video_event * World :=
  if opened then
    if stop_btn then (Returned, [], w)
    else frames_loop w min_h frames
  else (Returned, [], w).

End ProcessVideo.

(** The actions of a session that a list of detections stands for. *)
Fixpoint checks_of (now_of : nat -> string) (min_h : Z)
    (road_polygons : list polygon) (vehicle : list Z) (i : nat)
    (dets : list (Box * (Z * Z))) : list action :=
  match dets with
  | [] => []
  | (box, (track_id, cls_id)) :: rest =>
      if bool_decide (cls_id ∈ vehicle) then
        Check (now_of i) box track_id cls_id min_h road_polygons
          :: checks_of now_of min_h road_polygons vehicle (S i) rest
      else checks_of now_of min_h road_polygons vehicle (S i) rest
  end.

(** The tracker's output is well formed for a model: there are boxes, every
    class is a class of the model, and there is a mask for every box. *)
Definition results_well_formed (names : gmap Z string) (res : Results) : Prop :=
  exists b, boxes res = Some b /\
    Forall (fun c => is_Some (names !! c)) (boxes_cls b) /\
    (forall m, masks_xy res = Some m -> length (boxes_cls b) <= length m)%nat.

Definition frame_well_formed (names : gmap Z string) (f : Frame) : Prop :=
  forall res, track f = Some res -> results_well_formed names res.

(** A check of track [id] that passes the size filter, knows the class and
    finds the ground-contact point on the road. *)
Definition observed_on_road (ppt : polygon -> point -> Q) (s : System)
    (id : Z) (a : action) : Prop :=
  match a with
  | Check _ box track_id cls_id min_h road_polygons =>
      track_id = id /\ min_h <= box_height box /\
      is_Some (names s !! cls_id) /\
      on_road_loop ppt (tolerance s) road_polygons (center_of box) = true
  | _ => False
  end.

(** What [_log_violation] puts in a record. *)
Definition record_well_formed (names : gmap Z string) (r : ViolationRecord) : Prop :=
  Status r = "ILLEGAL PARKING" /\
  Evidence r = img_name_of (Vehicle_Type r) (Vehicle_ID r) /\
  exists c, names !! c = Some (Vehicle_Type r).

Definition is_imwrite (ev : event) : Prop :=
  match ev with
  | Imwrite _ _ _ => True
  | _ => False
  end.

(** Where the counters of an instance can stand. *)
Definition counters_classified (w : World) : Prop :=
  forall id c, violation_tracker (self w) !! id = Some c ->
    0 <= c /\
    (id ∉ penalized_ids (session_state w) -> c <= violation_threshold (self w)) /\
    (id ∈ penalized_ids (session_state w) -> c = violation_threshold (self w) + 1).

(** ** The images of the report *)

Section ReportImages.

(** [os.path.exists] on the disk of the moment, and
    [os.path.abspath(os.path.join(folder, evidence))]. *)
Variable exists_file : string -> bool.
Variable img_path_of : string -> string -> string.

(** [for idx, row in df.iterrows()]: the cells [(row, column, path)] that
    [worksheet.insert_image] is called for; [idx] counts from 0 over the
    rows of the frame built from the log. *)
Fixpoint image_cells (folder : string) (idx : Z) (df : list ViolationRecord)
    : list (Z * Z * string) :=
  match df with
  | [] => []
  | row :: rest =>
      let img_path := img_path_of folder (Evidence row) in
      if exists_file img_path
      then (idx + 1, 4, img_path) :: image_cells folder (idx + 1) rest
      else image_cells folder (idx + 1) rest
  end.

End ReportImages.

(** ** The script: one run, from the top *)

(** The capture of the uploaded video: what [cap.isOpened()] says and the
    frames [cap.read()] gives. *)
Record Video := {
  video_opened : bool;
  video_frames : list Frame
}.

(** The widgets of a script run. *)
Record Inputs := {
  reset_button : bool;
  uploaded_file : option Video;
  stop_button : bool;
  min_h_val : Z
}.

Inductive script_event :=
  | VideoEvent (ev : video_event)
  | UiEvent (ev : event).

(** How a script run ends: at the last line, at the [st.rerun()] of the
    reset, or with an exception nobody caught. *)
Inductive run_end :=
  | Finished
  | RerunRequested
  | Crashed (exc : string).

Section Script.

Variable pointPolygonTest : polygon -> point -> Q.
Variable model_names : gmap Z string.
Variable workbook : Type.
Variable write_sheet : list ViolationRecord -> attempt workbook.
Variable embed_images : workbook -> string -> list ViolationRecord -> attempt (list Byte.byte).

(** A run of the script on the session state [st] it finds; it gives the
    session state it leaves. *)
Definition script_run (st : RawSession) (inp : Inputs)
    : run_end * list script_event * RawSession :=
  let system := script_start model_names st in
  if reset_button inp then
    (RerunRequested, [], persist (session_state (clear_system system)))
  else
    match uploaded_file inp with
    | None => (Finished, [], persist (session_state system))
    | Some v =>
        let '(o, evs, w) :=
          process_video pointPolygonTest system (video_opened v)
            (stop_button inp) (min_h_val inp) (video_frames v) in
        match o with
        | Raised e => (Crashed e, VideoEvent <$> evs, persist (session_state w))
        | Returned =>
            let '(o', revs) := generate_report workbook write_sheet embed_images w in
            (match o' with Returned => Finished | Raised e => Crashed e end,
             (VideoEvent <$> evs) ++ (UiEvent <$> revs),
             persist (session_state w))
        end
    end.

(** The session state after a sequence of script runs. *)
Definition script_runs (st : RawSession) (inps : list Inputs) : RawSession :=
  foldl (fun st inp => (script_run st inp).2) st inps.

End Script.

(** ** File names *)

(** The character [_] (95). *)
Definition underscore : Ascii.ascii :=
  Ascii.Ascii true true true true true false true false.

(** No underscore in a string. *)
Fixpoint no_underscore (s : string) : bool :=
  match s with
  | EmptyString => true
  | String c rest => negb (Ascii.eqb c underscore) && no_underscore rest
  end.

(** ** Frames for the worked examples *)

Definition demo_clock (i : nat) : string := "2024-01-01 12:00:00".

(** The road (class 0, track 1) and the car far from it (class 1, track 7),
    each with its mask. *)
Definition demo_results : Results :=
  {| masks_xy := Some [demo_road; [(600, 100); (700, 100); (700, 250); (600, 250)]];
     boxes := Some {| boxes_xyxy := [(0, 400, 1280, 720); box_off_road];
                      boxes_cls := [0; 1];
                      boxes_id := Some [1; 7] |} |}.

Definition demo_frame : Frame := {| track := Some demo_results; now_at := demo_clock |}.

(** A frame on which the tracker raises. *)
Definition demo_frame_failed : Frame := {| track := None; now_at := demo_clock |}.

(** The same detections, but tracking gave no ids. *)
Definition demo_results_no_ids : Results :=
  {| masks_xy := Some [demo_road; [(600, 100); (700, 100); (700, 250); (600, 250)]];
     boxes := Some {| boxes_xyxy := [(0, 400, 1280, 720); box_off_road];
                      boxes_cls := [0; 1];
                      boxes_id := None |} |}.

(** No masks: a car standing where the road would be (track 7) between
    two other cars (tracks 3 and 9). *)
Definition demo_results_no_masks : Results :=
  {| masks_xy := None;
     boxes := Some {| boxes_xyxy := [box_off_road; box_on_road; box_near_road];
                      boxes_cls := [1; 1; 1];
                      boxes_id := Some [3; 7; 9] |} |}.

(** A model none of whose class names says vehicle. *)
Definition demo_names_araba : gmap Z string := {[ 0 := "yol"; 1 := "araba" ]}.

(** A spreadsheet writer that succeeds, with an empty buffer. *)
Definition demo_embed_images_ok (wb : unit) (folder : string)
    (df : list ViolationRecord) : attempt (list Byte.byte) := Done [].

(** A run with a video uploaded and the stop button pressed. *)
Definition demo_stop_inputs : Inputs :=
  {| reset_button := false;
     uploaded_file := Some {| video_opened := true; video_frames := [demo_frame] |};
     stop_button := true;
     min_h_val := 50 |}.

(** ** Properties *)

Section Properties.

Variable ppt : polygon -> point -> Q.
Variable model_names : gmap Z string.

Local Abbreviation check := (_check_vehicle ppt).
Local Abbreviation step := (do_action ppt model_names).
Local Abbreviation exec := (run ppt model_names).
Local Abbreviation start := (script_start model_names first_visit).
Local Abbreviation pen w := (penalized_ids (session_state w)).
Local Abbreviation log w := (violation_log (session_state w)).
Local Abbreviation tracker w := (violation_tracker (self w)).
Local Abbreviation threshold w := (violation_threshold (self w)).

(** *** The counter dictionary *)

Lemma ensure_counter_lookup id t :
  ensure_counter id t !! id = Some (default 0 (t !! id)).
Proof.
  unfold ensure_counter. destruct (t !! id) eqn:E; simpl.
  - by rewrite E.
  - by rewrite lookup_insert_eq.
Qed.

Lemma ensure_counter_other id id' t :
  id <> id' -> ensure_counter id t !! id' = t !! id'.
Proof.
  intros Hne. unfold ensure_counter. destruct (t !! id); [done|].
  by rewrite lookup_insert_ne.
Qed.

Lemma after_clean_counter w id : tracker (after_clean w id) !! id = Some 0.
Proof. simpl. by rewrite lookup_insert_eq. Qed.

Lemma after_count_counter w id :
  tracker (after_count w id) !! id = Some (counter_of w id + 1).
Proof. simpl. by rewrite lookup_insert_eq. Qed.

Lemma after_clean_other w id id' :
  id <> id' -> tracker (after_clean w id) !! id' = tracker w !! id'.
Proof.
  intros Hne. simpl. rewrite lookup_insert_ne; [|done].
  by apply ensure_counter_other.
Qed.

Lemma after_count_other w id id' :
  id <> id' -> tracker (after_count w id) !! id' = tracker w !! id'.
Proof.
  intros Hne. simpl. rewrite lookup_insert_ne; [|done].
  by apply ensure_counter_other.
Qed.

(** *** Every call of [_check_vehicle] follows one of the paths *)

Lemma check_vehicle_path w now box id cls min_h polys :
  check_path ppt w now box id cls min_h polys (check w now box id cls min_h polys).
Proof.
  unfold _check_vehicle.
  destruct (Z.ltb_spec (box_height box) min_h) as [Hh|Hh]; [by constructor|].
  destruct (names (self w) !! cls) as [vt|] eqn:Hn; [|by constructor].
  destruct (decide (id ∈ pen w)) as [Hp|Hp]; [by constructor|].
  destruct (on_road_loop _ _ _ _) eqn:Hr; [by apply path_clean|].
  rewrite ensure_counter_lookup. simpl.
  fold (counter_of w id).
  destruct (Z.ltb_spec (threshold w) (counter_of w id + 1)) as [Ht|Ht].
  - destruct (_log_violation _ _ _ _ _) as [evs w2] eqn:Hl.
    pose proof (path_violation ppt w now box id cls min_h polys vt Hh Hn Hp Hr Ht) as P.
    fold (after_count w id) in Hl. by rewrite Hl in P.
  - by apply path_analyzing.
Qed.

(** *** [_log_violation] *)

Lemma log_violation_self w now box id vt :
  self (_log_violation w now box id vt).2 = self w.
Proof. unfold _log_violation. by destruct (0 <? crop_size box). Qed.

Lemma log_violation_penalized w now box id vt :
  pen (_log_violation w now box id vt).2 = {[ id ]} ∪ pen w.
Proof. unfold _log_violation. by destruct (0 <? crop_size box). Qed.

Lemma log_violation_log w now box id vt :
  log (_log_violation w now box id vt).2 =
    if 0 <? crop_size box
    then log w ++ [ {| Vehicle_ID := id; Vehicle_Type := vt; Timestamp := now;
                       Status := "ILLEGAL PARKING"; Evidence := img_name_of vt id |} ]
    else log w.
Proof. unfold _log_violation. by destruct (0 <? crop_size box). Qed.

(** *** What a check leaves unchanged *)

Lemma check_settings w now box id cls min_h polys :
  let w' := (check w now box id cls min_h polys).2 in
  names (self w') = names (self w) /\
  tolerance (self w') = tolerance (self w) /\
  threshold w' = threshold w.
Proof.
  destruct (check_vehicle_path w now box id cls min_h polys); simpl;
    rewrite ?log_violation_self; done.
Qed.

Lemma check_penalized_grows w now box id cls min_h polys :
  pen w ⊆ pen (check w now box id cls min_h polys).2.
Proof.
  destruct (check_vehicle_path w now box id cls min_h polys); simpl;
    rewrite ?log_violation_penalized; set_solver.
Qed.

Lemma check_counter_other w now box id cls min_h polys id' :
  id <> id' ->
  tracker (check w now box id cls min_h polys).2 !! id' = tracker w !! id'.
Proof.
  intros Hne.
  destruct (check_vehicle_path w now box id cls min_h polys);
    rewrite ?log_violation_self; try done.
  - by apply after_clean_other.
  - by apply after_count_other.
  - simpl. rewrite log_violation_self. by apply after_count_other.
Qed.

Lemma check_penalized_other w now box id cls min_h polys id' :
  id <> id' ->
  id' ∈ pen (check w now box id cls min_h polys).2 -> id' ∈ pen w.
Proof.
  intros Hne.
  destruct (check_vehicle_path w now box id cls min_h polys); simpl;
    rewrite ?log_violation_penalized; set_solver.
Qed.

Lemma check_when_penalized w now box id cls min_h polys :
  id ∈ pen w -> (check w now box id cls min_h polys).2 = w.
Proof.
  intros Hp.
  destruct (check_vehicle_path w now box id cls min_h polys); done.
Qed.


(** *** Records and their ids *)

Lemma filter_id_absent id (l : list ViolationRecord) :
  id ∉ Vehicle_ID <$> l -> filter (fun r => Vehicle_ID r = id) l = [].
Proof.
  induction l as [|r l IH]; [done|]. rewrite fmap_cons, not_elem_of_cons.
  intros [Hne Hl]. rewrite filter_cons.
  destruct (decide (Vehicle_ID r = id)); [congruence|]. by apply IH.
Qed.

Lemma count_records_unique id (l : list ViolationRecord) :
  NoDup (Vehicle_ID <$> l) -> (count_records id l <= 1)%nat.
Proof.
  unfold count_records. induction l as [|r l IH]; [simpl; lia|].
  rewrite fmap_cons, NoDup_cons. intros [Hr Hl]. rewrite filter_cons.
  destruct (decide (Vehicle_ID r = id)) as [<-|Hne]; [|by apply IH].
  rewrite filter_id_absent; [simpl; lia | done].
Qed.

Lemma has_record_ids id (l : list ViolationRecord) :
  has_record id l <-> id ∈ Vehicle_ID <$> l.
Proof.
  unfold has_record. rewrite list_elem_of_fmap. split.
  - intros (r & Hr & <-). eauto.
  - intros (r & -> & Hr). eauto.
Qed.

(** *** The session invariant *)

Lemma session_inv_start : session_inv start.
Proof.
  split; simpl.
  - lia.
  - intros r Hr. by apply elem_of_nil in Hr.
  - constructor.
  - intros id _. unfold counter_of. simpl. rewrite lookup_empty. simpl. lia.
Qed.

Lemma session_inv_rerun w : session_inv w -> session_inv (script_rerun model_names w).
Proof.
  intros [Ht Hs Hu Hb]. split; simpl; [lia | done | done |].
  intros id _. unfold counter_of. simpl. rewrite lookup_empty. simpl. lia.
Qed.

Lemma session_inv_reset w : session_inv (reset_action model_names w).
Proof.
  split; simpl.
  - lia.
  - intros r Hr. by apply elem_of_nil in Hr.
  - constructor.
  - intros id _. unfold counter_of. simpl. rewrite lookup_empty. simpl. lia.
Qed.

Lemma session_inv_check w now box id cls min_h polys :
  session_inv w -> session_inv (check w now box id cls min_h polys).2.
Proof.
  intros [Ht Hs Hu Hb].
  destruct (check_vehicle_path w now box id cls min_h polys) as
    [ | | | vt Hh Hn Hp Hr | vt Hh Hn Hp Hr Hc | vt Hh Hn Hp Hr Hc ];
    try (by split).
  - split; simpl; try done.
    intros id' Hp'. unfold counter_of.
    destruct (decide (id = id')) as [<-|Hne].
    + rewrite after_clean_counter. simpl. lia.
    + rewrite after_clean_other by done. by apply Hb.
  - split; simpl; try done.
    intros id' Hp'. unfold counter_of.
    destruct (decide (id = id')) as [<-|Hne].
    + rewrite after_count_counter. simpl. lia.
    + rewrite after_count_other by done. by apply Hb.
  - split; simpl.
    + by rewrite log_violation_self.
    + rewrite log_violation_penalized, log_violation_log. simpl.
      intros r Hr'. destruct (0 <? crop_size box).
      * apply elem_of_app in Hr' as [Hr'|Hr'].
        -- apply Hs in Hr'. set_solver.
        -- apply list_elem_of_singleton in Hr' as ->. simpl. set_solver.
      * apply Hs in Hr'. set_solver.
    + rewrite log_violation_log. simpl. destruct (0 <? crop_size box); [|done].
      rewrite fmap_app. simpl. apply NoDup_app. split; [done|]. split.
      * intros x Hx Hx'. apply list_elem_of_singleton in Hx' as ->.
        apply list_elem_of_fmap in Hx as (r & Hid & Hr').
        apply Hs in Hr'. congruence.
      * apply NoDup_singleton.
    + rewrite log_violation_penalized. simpl. intros id' Hp'.
      assert (id <> id') as Hne by set_solver.
      unfold counter_of. rewrite log_violation_self.
      rewrite after_count_other by done. apply Hb. set_solver.
Qed.

Lemma session_inv_step w a : session_inv w -> session_inv (step w a).
Proof.
  destruct a as [now box id cls min_h polys| |]; simpl.
  - apply session_inv_check.
  - apply session_inv_rerun.
  - intros _. apply session_inv_reset.
Qed.

Lemma session_inv_run acts w : session_inv w -> session_inv (exec acts w).
Proof.
  revert w. induction acts as [|a acts IH]; intros w Hw; [done|].
  simpl. apply IH. by apply session_inv_step.
Qed.

Lemma reachable_inv w : reachable ppt model_names w -> session_inv w.
Proof. intros [acts ->]. apply session_inv_run, session_inv_start. Qed.


(** The settings of [__init__] stay for the whole session. *)
Lemma step_settings w a :
  threshold w = 15 -> tolerance (self w) = 5.0%Q ->
  threshold (step w a) = 15 /\ tolerance (self (step w a)) = 5.0%Q.
Proof.
  intros Ht Htol. destruct a as [now box id cls min_h polys| |]; simpl; [|done..].
  destruct (check_settings w now box id cls min_h polys) as (_ & -> & ->). done.
Qed.

Lemma run_settings acts w :
  threshold w = 15 -> tolerance (self w) = 5.0%Q ->
  threshold (exec acts w) = 15 /\ tolerance (self (exec acts w)) = 5.0%Q.
Proof.
  revert w. induction acts as [|a acts IH]; intros w Ht Htol; [done|].
  simpl. destruct (step_settings w a Ht Htol). by apply IH.
Qed.

(** *** Completeness of the log, as long as no evidence crop is empty *)

Lemma log_complete_step w a :
  crop_nonempty a -> log_complete w -> log_complete (step w a).
Proof.
  intros Hc Hw. destruct a as [now box id cls min_h polys| |]; simpl.
  - simpl in Hc. apply Z.ltb_lt in Hc.
    destruct (check_vehicle_path w now box id cls min_h polys); try done.
    intros id'. simpl. rewrite log_violation_penalized, log_violation_log, Hc.
    simpl. rewrite !has_record_ids, fmap_app, elem_of_app. simpl.
    rewrite elem_of_union, elem_of_singleton, list_elem_of_singleton.
    intros [->|Hp']; [by right|]. left. apply has_record_ids. by apply Hw.
  - done.
  - intros id'. simpl. set_solver.
Qed.

Lemma log_complete_run acts w :
  Forall crop_nonempty acts -> log_complete w -> log_complete (exec acts w).
Proof.
  revert w. induction acts as [|a acts IH]; intros w Hc Hw; [done|].
  apply Forall_cons in Hc as [Ha Hc]. simpl. apply IH; [done|].
  by apply log_complete_step.
Qed.

(** *** Runs of off-road frames *)

Lemma observed_off_road_settings s s' id a :
  names s' = names s -> tolerance s' = tolerance s ->
  observed_off_road ppt s id a -> observed_off_road ppt s' id a.
Proof.
  intros Hn Ht. destruct a; simpl; [|done..]. by rewrite Hn, Ht.
Qed.

Lemma off_road_step w id a :
  id ∉ pen w -> observed_off_road ppt (self w) id a ->
  counter_of (step w a) id = counter_of w id + 1 /\
  names (self (step w a)) = names (self w) /\
  tolerance (self (step w a)) = tolerance (self w) /\
  threshold (step w a) = threshold w /\
  (id ∈ pen (step w a) <-> threshold w < counter_of w id + 1).
Proof.
  intros Hp Ha. destruct a as [now box id' cls min_h polys| |]; simpl in *; [|done..].
  destruct Ha as (-> & Hh & [vt Hn] & Hr).
  destruct (check_settings w now box id cls min_h polys) as (En & Et & Eth).
  split; [|split; [done|split; [done|split; [done|]]]].
  - unfold counter_of at 1.
    destruct (check_vehicle_path w now box id cls min_h polys); cbn [snd];
      rewrite ?log_violation_self; try (lia || congruence || done);
      by rewrite after_count_counter.
  - destruct (check_vehicle_path w now box id cls min_h polys); cbn [snd];
      rewrite ?log_violation_penalized; try (lia || congruence || done).
    + split; [done | lia].
    + set_solver.
Qed.

Lemma off_road_run frames : forall w id,
  id ∉ pen w ->
  Forall (observed_off_road ppt (self w) id) frames ->
  counter_of w id + Z.of_nat (length frames) <= threshold w ->
  (id ∉ pen (exec frames w)) /\
  counter_of (exec frames w) id = counter_of w id + Z.of_nat (length frames) /\
  names (self (exec frames w)) = names (self w) /\
  tolerance (self (exec frames w)) = tolerance (self w) /\
  threshold (exec frames w) = threshold w.
Proof.
  induction frames as [|a frames IH]; intros w id Hp Hf Hc.
  - simpl. repeat split; try done. lia.
  - apply Forall_cons in Hf as [Ha Hf]. simpl in Hc |- *.
    destruct (off_road_step w id a Hp Ha) as (Ec & En & Et & Eth & Hpen).
    destruct (IH (step w a) id) as (Hp' & Ec' & En' & Et' & Eth').
    + rewrite Hpen. lia.
    + eapply Forall_impl; [exact Hf|]. intros b.
      by apply observed_off_road_settings.
    + lia.
    + repeat split; try congruence. lia.
Qed.


(** *** The claims *)

(** C2 (amended). The road-membership test answers on-road exactly when the
    signed distance of the point to at least one road polygon of the frame is
    at least the tolerance; with no road polygon it answers off-road; and the
    tolerance of a session is the positive 5.0 of [__init__], so a point on
    or outside the edge of every polygon (signed distance at most 0) is
    off-road, however close to an edge it is. *)
Theorem on_road_iff_distance_reaches_tolerance (tol : Q) (polys : list polygon)
    (pt : point) (acts : list action) :
  (on_road_loop ppt tol polys pt = true <->
     exists poly, poly ∈ polys /\ (tol <= ppt poly pt)%Q) /\
  on_road_loop ppt tol [] pt = false /\
  tolerance (self (exec acts start)) = 5.0%Q /\
  ((forall poly, poly ∈ polys -> (ppt poly pt <= 0)%Q) ->
     on_road_loop ppt (tolerance (self (exec acts start))) polys pt = false).
Proof.
  assert (on_road_loop ppt tol polys pt = true <->
          exists poly, poly ∈ polys /\ (tol <= ppt poly pt)%Q) as Hiff.
  { induction polys as [|poly rest IH]; simpl.
    - split; [done|]. intros (poly & Hin & _). by apply elem_of_nil in Hin.
    - destruct (Qle_bool tol (ppt poly pt)) eqn:E.
      + split; [|done]. intros _. exists poly. split; [left|].
        by apply Qle_bool_iff.
      + rewrite IH. split.
        * intros (p & Hin & Hle). exists p. split; [by right | done].
        * intros (p & Hin & Hle). apply elem_of_cons in Hin as [->|Hin].
          -- apply Qle_bool_iff in Hle. congruence.
          -- eauto. }
  assert (tolerance (self (exec acts start)) = 5.0%Q) as Htol.
  { by apply run_settings. }
  repeat split; try done; try apply Hiff.
  intros Hout. rewrite Htol. clear Hiff.
  induction polys as [|poly rest IH]; [done|]. simpl.
  destruct (Qle_bool 5.0 (ppt poly pt)) eqn:E.
  - apply Qle_bool_iff in E.
    assert (ppt poly pt <= 0)%Q as H0 by (apply Hout; left).
    exfalso. apply (Qle_not_lt _ _ (Qle_trans _ _ _ E H0)). reflexivity.
  - apply IH. intros p Hp. apply Hout. by right.
Qed.

(** C3. After the reset action, the counter dictionary and the penalized set
    are both empty (and so is the log), whatever they held before. *)
Theorem reset_clears_state (w : World) :
  tracker (reset_action model_names w) = ∅ /\
  pen (reset_action model_names w) = ∅ /\
  log (reset_action model_names w) = [].
Proof. done. Qed.

(** C4 (amended). The size filter comes first: a box lower than the minimum
    makes the check return with nothing drawn and nothing changed, also for a
    penalized track; the PENALIZED drawing, with no state change, is what a
    penalized track gets when its box passes the filter. *)
Theorem size_filter_before_penalized (w : World) (now : string) (box : Box)
    (id cls min_h : Z) (polys : list polygon) :
  (box_height box < min_h ->
     check w now box id cls min_h polys = (Returned, [], w)) /\
  (forall vt, min_h <= box_height box -> names (self w) !! cls = Some vt ->
     id ∈ pen w ->
     check w now box id cls min_h polys =
       (Returned, draw box (255, 0, 0) (label_penalized vt id), w)).
Proof.
  split.
  - intros Hh. unfold _check_vehicle. apply Z.ltb_lt in Hh. by rewrite Hh.
  - intros vt Hh Hn Hp. unfold _check_vehicle.
    apply Z.ltb_ge in Hh. rewrite Hh, Hn. by rewrite decide_True.
Qed.

(** C5. A check that passes the size filter, for a track that is not
    penalized: when the ground-contact point is on-road the counter of the
    track becomes 0 whatever it was, and when it is off-road the counter
    grows by exactly 1 (from 0 for a track seen for the first time). *)
Theorem counter_reset_or_incremented (w : World) (now : string) (box : Box)
    (id cls min_h : Z) (polys : list polygon) (vt : string) :
  min_h <= box_height box ->
  names (self w) !! cls = Some vt ->
  id ∉ pen w ->
  let w' := (check w now box id cls min_h polys).2 in
  (on_road_loop ppt (tolerance (self w)) polys (center_of box) = true ->
     tracker w' !! id = Some 0) /\
  (on_road_loop ppt (tolerance (self w)) polys (center_of box) = false ->
     tracker w' !! id = Some (counter_of w id + 1)).
Proof.
  intros Hh Hn Hp.
  destruct (check_vehicle_path w now box id cls min_h polys); cbn [snd];
    rewrite ?log_violation_self; try (lia || congruence || done).
  - split; [intros _; apply after_clean_counter | congruence].
  - split; [congruence | intros _; apply after_count_counter].
  - split; [congruence | intros _; apply after_count_counter].
Qed.

(** C6. A track that is not penalized and whose counter is 0 is observed
    off-road on threshold + 1 consecutive checks: after each of the first
    threshold checks it is still not penalized and its counter is the number
    of checks so far, and the last check, where the counter first exceeds the
    threshold, penalizes it. With the threshold 15 of [__init__] that is the
    16th check and none before. *)
Theorem violation_fires_when_counter_exceeds_threshold (w : World) (id : Z)
    (frames : list action) :
  0 <= threshold w ->
  id ∉ pen w ->
  counter_of w id = 0 ->
  Forall (observed_off_road ppt (self w) id) frames ->
  length frames = S (Z.to_nat (threshold w)) ->
  (forall k, (k <= Z.to_nat (threshold w))%nat ->
     (id ∉ pen (exec (take k frames) w)) /\
     counter_of (exec (take k frames) w) id = Z.of_nat k) /\
  id ∈ pen (exec frames w) /\
  counter_of (exec frames w) id = threshold w + 1.
Proof.
  intros Ht Hp Hc Hf Hlen.
  assert (forall k, (k <= Z.to_nat (threshold w))%nat ->
     (id ∉ pen (exec (take k frames) w)) /\
     counter_of (exec (take k frames) w) id = Z.of_nat k /\
     names (self (exec (take k frames) w)) = names (self w) /\
     tolerance (self (exec (take k frames) w)) = tolerance (self w) /\
     threshold (exec (take k frames) w) = threshold w) as Hk.
  { intros k Hle.
    destruct (off_road_run (take k frames) w id Hp) as (H1 & H2 & H3).
    - by apply Forall_take.
    - rewrite length_take. lia.
    - rewrite length_take in H2. split; [done|]. split; [lia | done]. }
  split; [intros k Hle; destruct (Hk k Hle) as (? & ? & _); done|].
  destruct (Hk (Z.to_nat (threshold w)) (le_n _)) as (Hp' & Hc' & Hn' & Htol' & Hth').
  rewrite <- (take_drop (Z.to_nat (threshold w)) frames).
  unfold run. rewrite foldl_app. fold (exec (take (Z.to_nat (threshold w)) frames) w).
  set (w1 := exec (take (Z.to_nat (threshold w)) frames) w) in *.
  destruct (drop (Z.to_nat (threshold w)) frames) as [|a [|b rest]] eqn:Hd.
  - apply (f_equal length) in Hd. rewrite length_drop in Hd. simpl in Hd. lia.
  - simpl.
    assert (observed_off_road ppt (self w1) id a) as Ha.
    { apply (observed_off_road_settings (self w)); [done..|].
      eapply Forall_forall; [exact Hf|].
      apply (subseteq_drop (Z.to_nat (threshold w))). rewrite Hd. left. }
    destruct (off_road_step w1 id a Hp' Ha) as (Ec & _ & _ & _ & Hpen).
    split; [apply Hpen|]; lia.
  - apply (f_equal length) in Hd. rewrite length_drop in Hd. simpl in Hd. lia.
Qed.

(** C8. A detection whose box is lower than the minimum height makes the
    check return with nothing drawn and the whole state as it was: the
    counters, the penalized set and the log. *)
Theorem small_box_changes_nothing (w : World) (now : string) (box : Box)
    (id cls min_h : Z) (polys : list polygon) :
  box_height box < min_h ->
  check w now box id cls min_h polys = (Returned, [], w) /\
  tracker (check w now box id cls min_h polys).2 = tracker w /\
  pen (check w now box id cls min_h polys).2 = pen w /\
  log (check w now box id cls min_h polys).2 = log w.
Proof.
  intros Hh. unfold _check_vehicle. apply Z.ltb_lt in Hh. by rewrite Hh.
Qed.


(** C1 (amended). In every state of a session, a track id with a record in
    the log is in the penalized set, and no id has more than one record;
    when no evidence crop of the session was empty, the converse holds too:
    every penalized id has its record. *)
Theorem record_iff_penalized_unless_empty_crop (acts : list action) (id : Z) :
  (has_record id (log (exec acts start)) -> id ∈ pen (exec acts start)) /\
  (Forall crop_nonempty acts ->
     id ∈ pen (exec acts start) -> has_record id (log (exec acts start))) /\
  (count_records id (log (exec acts start)) <= 1)%nat.
Proof.
  pose proof (session_inv_run acts start session_inv_start) as [_ Hs Hu _].
  repeat split.
  - intros (r & Hr & <-). by apply Hs.
  - intros Hc. apply (log_complete_run acts start Hc).
    intros id' Hp. simpl in Hp. set_solver.
  - by apply count_records_unique.
Qed.

(** C7. In every state of a session the log holds at most one record per
    track id, before and after any check; a check of a track that is already
    penalized appends nothing; a check appends at most one record, of the
    track it checks, and only while that track is not yet penalized. *)
Theorem at_most_one_record_per_track (w : World) (id : Z)
    (now : string) (box : Box) (cls min_h : Z) (polys : list polygon) :
  reachable ppt model_names w ->
  (count_records id (log w) <= 1)%nat /\
  (count_records id (log (check w now box id cls min_h polys).2) <= 1)%nat /\
  (id ∈ pen w -> log (check w now box id cls min_h polys).2 = log w) /\
  (log (check w now box id cls min_h polys).2 = log w \/
   exists r, log (check w now box id cls min_h polys).2 = log w ++ [r] /\
     Vehicle_ID r = id /\ (id ∉ pen w) /\
     id ∈ pen (check w now box id cls min_h polys).2).
Proof.
  intros Hreach. pose proof (reachable_inv w Hreach) as Hinv.
  pose proof (session_inv_check w now box id cls min_h polys Hinv) as Hinv'.
  split; [apply count_records_unique, Hinv|].
  split; [apply count_records_unique, Hinv'|].
  split.
  - intros Hp. by rewrite check_when_penalized.
  - destruct (check_vehicle_path w now box id cls min_h polys); cbn [snd];
      try (by left).
    rewrite log_violation_log, log_violation_penalized. cbn [snd].
    destruct (0 <? crop_size box); [|by left].
    right. eexists. split; [reflexivity|]. simpl. split; [done|].
    split; [done | set_solver].
Qed.

(** C10 (amended). Once a track id is penalized, no check changes its
    counter or takes it out of the penalized set: not a check of that track,
    whether on the road or off it, and not a check of another track. So as
    long as the instance lives the counter stays at the value it had when
    the track was penalized, and in a session that value is threshold + 1.
    It does not stay for the rest of the session: a script rerun builds a
    new instance with an empty counter dictionary while the track stays
    penalized, and from then on the track has no counter at all, since the
    checks of a penalized track never make one. *)
Theorem penalized_counter_is_frozen_until_rerun (w : World) (id : Z)
    (acts : list action) :
  (id ∈ pen w -> Forall (fun a => a <> Reset) acts ->
     id ∈ pen (exec acts w) /\
     tracker (exec acts w) !! id
       = if existsb is_rerun acts then None else tracker w !! id) /\
  (reachable ppt model_names w -> id ∉ pen w ->
     forall now box track_id cls min_h polys,
       id ∈ pen (check w now box track_id cls min_h polys).2 ->
       tracker (check w now box track_id cls min_h polys).2 !! id
         = Some (threshold w + 1)).
Proof.
  split.
  - revert w. induction acts as [|a acts IH]; intros w Hp Hc; [done|].
    apply Forall_cons in Hc as [Ha Hc].
    change (exec (a :: acts) w) with (exec acts (step w a)).
    destruct a as [now box track_id cls min_h polys| |]; [| |done].
    + assert (id ∈ pen (step w (Check now box track_id cls min_h polys))) as Hp'.
      { by apply check_penalized_grows. }
      destruct (IH _ Hp' Hc) as [Hp'' Et]. split; [done|]. rewrite Et.
      cbn [existsb is_rerun orb]. destruct (existsb is_rerun acts); [done|].
      cbn [do_action]. destruct (decide (track_id = id)) as [->|Hne].
      * by rewrite check_when_penalized.
      * by apply check_counter_other.
    + assert (id ∈ pen (step w Rerun)) as Hp' by done.
      destruct (IH _ Hp' Hc) as [Hp'' Et]. split; [done|]. rewrite Et.
      cbn [existsb is_rerun orb]. destruct (existsb is_rerun acts); [done|].
      cbn [do_action script_rerun script_start __init__ self violation_tracker].
      apply lookup_empty.
  - intros Hreach Hp now box track_id cls min_h polys Hp'.
    apply reachable_inv in Hreach as [_ _ _ Hb].
    destruct (decide (track_id = id)) as [->|Hne];
      [|by apply check_penalized_other in Hp'].
    specialize (Hb id Hp). revert Hp'.
    destruct (check_vehicle_path w now box id cls min_h polys); cbn [snd];
      try done.
    rewrite log_violation_self, after_count_counter. intros _. f_equal. lia.
Qed.

(** A new script run starts from an empty counter dictionary and keeps the
    penalized set: the counters live as long as the instance. *)
Lemma rerun_forgets_counters w :
  tracker (script_rerun model_names w) = ∅ /\
  pen (script_rerun model_names w) = pen w /\
  log (script_rerun model_names w) = log w.
Proof. done. Qed.

End Properties.

Section ReportProperties.

Variable workbook : Type.
Variable write_sheet : list ViolationRecord -> attempt workbook.
Variable embed_images : workbook -> string -> list ViolationRecord -> attempt (list Byte.byte).

Local Abbreviation report := (generate_report workbook write_sheet embed_images).
Local Abbreviation raises := (serialization_raises workbook write_sheet embed_images).

(** C9. With an empty log the report generator shows a warning and nothing
    else: no download is offered. It never lets an exception out; when the
    log is not empty and a call of the spreadsheet writer raises, the last
    thing shown is the error message with the exception's text, and no
    download is offered. *)
Theorem report_fails_gracefully (w : World) :
  (violation_log (session_state w) = [] ->
     report w = (Returned, [StWarning "No violations recorded yet."])) /\
  (report w).1 = Returned /\
  (forall e, violation_log (session_state w) <> [] -> raises w e ->
     last (report w).2 = Some (StError ("Excel Error: " +:+ e)) /\
     Forall (fun ev => ~ is_download ev) (report w).2).
Proof.
  unfold generate_report, serialization_raises, report_body.
  destruct (violation_log (session_state w)) as [|r l] eqn:Hlog.
  - repeat split; try done.
  - split; [done|]. split.
    + destruct (write_sheet (r :: l)) as [wb|e]; [|done].
      by destruct (embed_images wb _ _).
    + intros e _ [Hw | (wb & Hw & He)]; rewrite Hw; [|rewrite He]; simpl.
      * split; [done|]. repeat constructor. by intros [].
      * split; [done|]. repeat constructor; by intros [].
Qed.

End ReportProperties.

(** ** The claims on the worked scene *)

Lemma demo_penalized_has_7 : 7 ∈ penalized_ids (session_state demo_penalized).
Proof. apply (bool_decide_unpack _). vm_compute. exact I. Defined.

Lemma demo_start_lacks_7 : 7 ∉ penalized_ids (session_state demo_start).
Proof. apply (bool_decide_unpack _). vm_compute. exact I. Defined.

(** C1, the claim as stated fails: after sixteen off-road frames of a car
    whose box has no width, track 7 is penalized and the log has no record
    of it. *)
Lemma penalized_without_record :
  7 ∈ penalized_ids (session_state demo_no_evidence) /\
  violation_log (session_state demo_no_evidence) = [] /\
  ~ (has_record 7 (violation_log (session_state demo_no_evidence)) <->
     7 ∈ penalized_ids (session_state demo_no_evidence)).
Proof.
  assert (7 ∈ penalized_ids (session_state demo_no_evidence)) as Hp.
  { apply (bool_decide_unpack _). vm_compute. exact I. }
  assert (violation_log (session_state demo_no_evidence) = []) as Hl.
  { vm_compute. reflexivity. }
  split; [exact Hp|]. split; [exact Hl|].
  intros [_ Hback]. destruct (Hback Hp) as (r & Hr & _).
  rewrite Hl in Hr. by apply elem_of_nil in Hr.
Qed.

Lemma record_iff_penalized_witness :
  Forall crop_nonempty (replicate 16 (demo_check box_near_road)) /\
  (has_record 7 (violation_log (session_state demo_penalized)) <->
   7 ∈ penalized_ids (session_state demo_penalized)) /\
  (count_records 7 (violation_log (session_state demo_penalized)) <= 1)%nat.
Proof.
  assert (Forall crop_nonempty (replicate 16 (demo_check box_near_road))) as Hc.
  { apply Forall_replicate. vm_compute. reflexivity. }
  split; [exact Hc|].
  destruct (record_iff_penalized_unless_empty_crop rect_signed_distance demo_names
              (replicate 16 (demo_check box_near_road)) 7) as (H1 & H2 & H3).
  split; [split; [exact H1 | exact (H2 Hc)] | exact H3].
Defined.

(** C2, the claim as stated fails: the ground-contact point of the car is two
    pixels outside the road edge, well within the tolerance of five, and the
    test answers off-road. *)
Lemma near_road_point_is_off_road :
  (- tolerance (self demo_start) <= rect_signed_distance demo_road (center_of box_near_road))%Q /\
  (rect_signed_distance demo_road (center_of box_near_road) < 0)%Q /\
  on_road_loop rect_signed_distance (tolerance (self demo_start)) [demo_road]
    (center_of box_near_road) = false.
Proof.
  split; [vm_compute; discriminate|]. split; vm_compute; reflexivity.
Qed.

Lemma on_road_iff_distance_witness :
  (on_road_loop rect_signed_distance 5.0 [demo_road] (center_of box_on_road) = true <->
     exists poly, poly ∈ [demo_road] /\
       (5.0 <= rect_signed_distance poly (center_of box_on_road))%Q) /\
  on_road_loop rect_signed_distance (tolerance (self demo_start)) [demo_road]
    (center_of box_near_road) = false.
Proof.
  split.
  - exact (proj1 (on_road_iff_distance_reaches_tolerance rect_signed_distance
                    demo_names 5.0 [demo_road] (center_of box_on_road) [])).
  - destruct (on_road_iff_distance_reaches_tolerance rect_signed_distance
                demo_names 5.0 [demo_road] (center_of box_near_road) [])
      as (_ & _ & _ & H).
    apply H. intros poly Hin. apply list_elem_of_singleton in Hin as ->.
    vm_compute. discriminate.
Defined.

(** C4, the claim as stated fails: track 7 is penalized and its box is forty
    pixels high under a minimum of fifty; the check draws nothing, where the
    claim has it draw the PENALIZED box. *)
Lemma penalized_small_box_is_skipped :
  7 ∈ penalized_ids (session_state demo_penalized) /\
  box_height box_small < 50 /\
  (_check_vehicle rect_signed_distance demo_penalized "2024-01-01 12:00:01"
     box_small 7 1 50 [demo_road]).1 = (Returned, []) /\
  (_check_vehicle rect_signed_distance demo_penalized "2024-01-01 12:00:01"
     box_small 7 1 50 [demo_road]).1.2
    <> draw box_small (255, 0, 0) (label_penalized "car" 7).
Proof.
  split; [exact demo_penalized_has_7|]. split; [reflexivity|].
  split; [vm_compute; reflexivity | vm_compute; discriminate].
Qed.

Lemma size_filter_before_penalized_witness :
  _check_vehicle rect_signed_distance demo_penalized "2024-01-01 12:00:01"
    box_small 7 1 50 [demo_road] = (Returned, [], demo_penalized) /\
  _check_vehicle rect_signed_distance demo_penalized "2024-01-01 12:00:01"
    box_on_road 7 1 50 [demo_road]
    = (Returned, draw box_on_road (255, 0, 0) (label_penalized "car" 7), demo_penalized).
Proof.
  destruct (size_filter_before_penalized rect_signed_distance demo_penalized
              "2024-01-01 12:00:01" box_small 7 1 50 [demo_road]) as [Hsmall _].
  destruct (size_filter_before_penalized rect_signed_distance demo_penalized
              "2024-01-01 12:00:01" box_on_road 7 1 50 [demo_road]) as [_ Hpen].
  split.
  - apply Hsmall. reflexivity.
  - apply Hpen.
    + vm_compute. discriminate.
    + reflexivity.
    + exact demo_penalized_has_7.
Defined.

Lemma demo_analyzing_lacks_7 : 7 ∉ penalized_ids (session_state demo_analyzing).
Proof. apply (bool_decide_unpack _). vm_compute. exact I. Defined.

Lemma counter_reset_or_incremented_witness :
  counter_of demo_analyzing 7 = 10 /\
  violation_tracker (self (_check_vehicle rect_signed_distance demo_analyzing
    "2024-01-01 12:00:01" box_on_road 7 1 50 [demo_road]).2) !! 7 = Some 0 /\
  violation_tracker (self (_check_vehicle rect_signed_distance demo_analyzing
    "2024-01-01 12:00:01" box_off_road 7 1 50 [demo_road]).2) !! 7 = Some 11.
Proof.
  split; [vm_compute; reflexivity|]. split.
  - apply (counter_reset_or_incremented rect_signed_distance demo_analyzing
             "2024-01-01 12:00:01" box_on_road 7 1 50 [demo_road] "car").
    + vm_compute. discriminate.
    + reflexivity.
    + exact demo_analyzing_lacks_7.
    + vm_compute. reflexivity.
  - apply (counter_reset_or_incremented rect_signed_distance demo_analyzing
             "2024-01-01 12:00:01" box_off_road 7 1 50 [demo_road] "car").
    + vm_compute. discriminate.
    + reflexivity.
    + exact demo_analyzing_lacks_7.
    + vm_compute. reflexivity.
Defined.

Lemma violation_fires_witness :
  violation_threshold (self demo_start) = 15 /\
  (forall k, (k <= 15)%nat ->
     (7 ∉ penalized_ids (session_state
        (run rect_signed_distance demo_names
           (take k (replicate 16 (demo_check box_near_road))) demo_start))) /\
     counter_of (run rect_signed_distance demo_names
           (take k (replicate 16 (demo_check box_near_road))) demo_start) 7 = Z.of_nat k) /\
  7 ∈ penalized_ids (session_state demo_penalized) /\
  counter_of demo_penalized 7 = 16.
Proof.
  split; [reflexivity|].
  apply (violation_fires_when_counter_exceeds_threshold rect_signed_distance
           demo_names demo_start 7 (replicate 16 (demo_check box_near_road))).
  - vm_compute. discriminate.
  - exact demo_start_lacks_7.
  - reflexivity.
  - apply Forall_replicate. split; [reflexivity|]. split; [vm_compute; discriminate|].
    split; [by exists "car" | vm_compute; reflexivity].
  - reflexivity.
Defined.

Lemma small_box_changes_nothing_witness :
  box_height box_small < 50 /\
  _check_vehicle rect_signed_distance demo_analyzing "2024-01-01 12:00:01"
    box_small 7 1 50 [demo_road] = (Returned, [], demo_analyzing).
Proof.
  split; [reflexivity|].
  apply (small_box_changes_nothing rect_signed_distance demo_analyzing
           "2024-01-01 12:00:01" box_small 7 1 50 [demo_road]).
  reflexivity.
Defined.

Lemma demo_penalized_reachable : reachable rect_signed_distance demo_names demo_penalized.
Proof. exists (replicate 16 (demo_check box_near_road)). reflexivity. Defined.

Lemma at_most_one_record_witness :
  (count_records 7 (violation_log (session_state demo_penalized)) <= 1)%nat /\
  violation_log (session_state
    (_check_vehicle rect_signed_distance demo_penalized "2024-01-01 12:00:01"
       box_near_road 7 1 50 [demo_road]).2)
  = violation_log (session_state demo_penalized).
Proof.
  pose proof (at_most_one_record_per_track rect_signed_distance demo_names
                demo_penalized 7 "2024-01-01 12:00:01" box_near_road 1 50 [demo_road]
                demo_penalized_reachable) as (H1 & _ & H3 & _).
  split; [exact H1 | exact (H3 demo_penalized_has_7)].
Defined.

Lemma demo_fifteen_lacks_7 : 7 ∉ penalized_ids (session_state demo_fifteen).
Proof. apply (bool_decide_unpack _). vm_compute. exact I. Defined.

Lemma demo_fifteen_reachable : reachable rect_signed_distance demo_names demo_fifteen.
Proof. exists (replicate 15 (demo_check box_off_road)). reflexivity. Defined.

Lemma demo_sixteenth_penalizes :
  7 ∈ penalized_ids (session_state
    (_check_vehicle rect_signed_distance demo_fifteen "2024-01-01 12:00:01"
       box_off_road 7 1 50 [demo_road]).2).
Proof. apply (bool_decide_unpack _). vm_compute. exact I. Defined.

(** C10, the claim as stated fails: track 7 is penalized with its counter
    at 16; after a script rerun it is still penalized and has no counter,
    and a later check does not bring one back. *)
Lemma rerun_drops_penalized_counter :
  7 ∈ penalized_ids (session_state demo_penalized) /\
  violation_tracker (self demo_penalized) !! 7
    = Some (violation_threshold (self demo_penalized) + 1) /\
  7 ∈ penalized_ids (session_state
        (run rect_signed_distance demo_names [Rerun; demo_check box_on_road]
           demo_penalized)) /\
  violation_tracker (self
    (run rect_signed_distance demo_names [Rerun; demo_check box_on_road]
       demo_penalized)) !! 7 = None /\
  violation_tracker (self
    (run rect_signed_distance demo_names [Rerun; demo_check box_on_road]
       demo_penalized)) !! 7
    <> Some (violation_threshold (self demo_penalized) + 1).
Proof.
  split; [exact demo_penalized_has_7|].
  split; [vm_compute; reflexivity|].
  split; [apply (bool_decide_unpack _); vm_compute; exact I|].
  assert (violation_tracker (self
    (run rect_signed_distance demo_names [Rerun; demo_check box_on_road]
       demo_penalized)) !! 7 = None) as Hnone by (vm_compute; reflexivity).
  split; [exact Hnone|]. rewrite Hnone. discriminate.
Qed.

Lemma demo_checks_have_no_rerun :
  existsb is_rerun
    [demo_check box_on_road; demo_check box_off_road; demo_check box_small] = false.
Proof. reflexivity. Defined.

Lemma demo_checks_have_a_rerun :
  existsb is_rerun [demo_check box_on_road; Rerun; demo_check box_off_road] = true.
Proof. reflexivity. Defined.

Lemma penalized_counter_witness :
  violation_tracker (self demo_penalized) !! 7 = Some 16 /\
  violation_tracker (self
    (run rect_signed_distance demo_names
       [demo_check box_on_road; demo_check box_off_road; demo_check box_small]
       demo_penalized)) !! 7 = violation_tracker (self demo_penalized) !! 7 /\
  violation_tracker (self
    (run rect_signed_distance demo_names
       [demo_check box_on_road; Rerun; demo_check box_off_road]
       demo_penalized)) !! 7 = None /\
  violation_tracker (self
    (_check_vehicle rect_signed_distance demo_fifteen "2024-01-01 12:00:01"
       box_off_road 7 1 50 [demo_road]).2) !! 7
    = Some (violation_threshold (self demo_fifteen) + 1).
Proof.
  split; [vm_compute; reflexivity|]. split; [|split].
  - assert (Forall (fun a => a <> Reset)
              [demo_check box_on_road; demo_check box_off_road; demo_check box_small])
      as Hacts by (repeat constructor; discriminate).
    pose proof (proj2 (proj1 (penalized_counter_is_frozen_until_rerun
             rect_signed_distance demo_names demo_penalized 7
             [demo_check box_on_road; demo_check box_off_road; demo_check box_small])
             demo_penalized_has_7 Hacts)) as H.
    rewrite demo_checks_have_no_rerun in H. exact H.
  - assert (Forall (fun a => a <> Reset)
              [demo_check box_on_road; Rerun; demo_check box_off_road])
      as Hacts by (repeat constructor; discriminate).
    pose proof (proj2 (proj1 (penalized_counter_is_frozen_until_rerun
             rect_signed_distance demo_names demo_penalized 7
             [demo_check box_on_road; Rerun; demo_check box_off_road])
             demo_penalized_has_7 Hacts)) as H.
    rewrite demo_checks_have_a_rerun in H. exact H.
  - exact (proj2 (penalized_counter_is_frozen_until_rerun rect_signed_distance
                    demo_names demo_fifteen 7 [])
             demo_fifteen_reachable demo_fifteen_lacks_7
             "2024-01-01 12:00:01" box_off_road 7 1 50 [demo_road]
             demo_sixteenth_penalizes).
Defined.

Lemma report_fails_gracefully_witness :
  generate_report unit demo_write_sheet demo_embed_images demo_start
    = (Returned, [StWarning "No violations recorded yet."]) /\
  last (generate_report unit demo_write_sheet demo_embed_images demo_penalized).2
    = Some (StError "Excel Error: No space left on device") /\
  Forall (fun ev => ~ is_download ev)
    (generate_report unit demo_write_sheet demo_embed_images demo_penalized).2.
Proof.
  split.
  - apply (report_fails_gracefully unit demo_write_sheet demo_embed_images demo_start).
    reflexivity.
  - apply (report_fails_gracefully unit demo_write_sheet demo_embed_images demo_penalized).
    + vm_compute. discriminate.
    + right. exists tt. split; reflexivity.
Defined.

(** ** Beyond the claims: the frame loop, the classes, the evidence *)

Section MoreProperties.

Variable ppt : polygon -> point -> Q.
Variable model_names : gmap Z string.

Local Abbreviation check := (_check_vehicle ppt).
Local Abbreviation step := (do_action ppt model_names).
Local Abbreviation exec := (run ppt model_names).
Local Abbreviation start := (script_start model_names first_visit).
Local Abbreviation pen w := (penalized_ids (session_state w)).
Local Abbreviation log w := (violation_log (session_state w)).
Local Abbreviation tracker w := (violation_tracker (self w)).
Local Abbreviation threshold w := (violation_threshold (self w)).

Lemma run_app acts1 acts2 w : exec (acts1 ++ acts2) w = exec acts2 (exec acts1 w).
Proof. unfold run. apply foldl_app. Qed.

Lemma run_cons a acts w : exec (a :: acts) w = exec acts (step w a).
Proof. done. Qed.

Lemma reachable_run acts w :
  reachable ppt model_names w -> reachable ppt model_names (exec acts w).
Proof.
  intros [acts0 ->]. exists (acts0 ++ acts). by rewrite run_app.
Qed.

Lemma run_names checks w :
  Forall is_check checks -> names (self (exec checks w)) = names (self w).
Proof.
  revert w. induction checks as [|a checks IH]; intros w Hc; [done|].
  apply Forall_cons in Hc as [Ha Hc]. destruct a; [|done..].
  rewrite run_cons, (IH _ Hc). cbn [do_action].
  by destruct (check_settings ppt w now box track_id cls_id min_h road_polygons)
    as (-> & _).
Qed.

(** *** The loop over the detections of a frame *)

Lemma checks_of_are_checks now_of min_h polys vehicle i dets :
  Forall is_check (checks_of now_of min_h polys vehicle i dets).
Proof.
  revert i. induction dets as [|[box [tid cls]] dets IH]; intros i; simpl; [done|].
  case_bool_decide; [constructor; [done|]|]; apply IH.
Qed.

Lemma vehicles_loop_returned w now_of min_h polys vehicle i dets :
  (vehicles_loop ppt w now_of min_h polys vehicle i dets).1.1 = Returned ->
  (vehicles_loop ppt w now_of min_h polys vehicle i dets).2
    = exec (checks_of now_of min_h polys vehicle i dets) w.
Proof.
  revert w i. induction dets as [|[box [tid cls]] dets IH]; intros w i; simpl; [done|].
  case_bool_decide; [|apply IH].
  destruct (check w (now_of i) box tid cls min_h polys) as [[o evs] w1] eqn:Hc.
  destruct o; [|done].
  specialize (IH w1 (S i)).
  destruct (vehicles_loop ppt w1 now_of min_h polys vehicle (S i) dets)
    as [[o2 evs2] w2]. simpl in *. intros Ho. rewrite (IH Ho).
  by rewrite Hc.
Qed.

Lemma vehicles_loop_run w now_of min_h polys vehicle i dets :
  exists checks, Forall is_check checks /\
    (vehicles_loop ppt w now_of min_h polys vehicle i dets).2 = exec checks w.
Proof.
  revert w i. induction dets as [|[box [tid cls]] dets IH]; intros w i; simpl.
  - by exists [].
  - case_bool_decide; [|apply IH].
    destruct (check w (now_of i) box tid cls min_h polys) as [[o evs] w1] eqn:Hc.
    destruct o.
    + destruct (IH w1 (S i)) as (checks & Hchecks & Hrun).
      destruct (vehicles_loop ppt w1 now_of min_h polys vehicle (S i) dets)
        as [[o2 evs2] w2]. simpl in *.
      exists (Check (now_of i) box tid cls min_h polys :: checks).
      split; [by constructor|]. rewrite run_cons. cbn [do_action]. by rewrite Hc.
    + exists [Check (now_of i) box tid cls min_h polys].
      split; [by repeat constructor|]. rewrite run_cons. cbn [do_action]. by rewrite Hc.
Qed.

Lemma analyze_frame_run w res now_of min_h :
  exists checks, Forall is_check checks /\
    (analyze_frame ppt w res now_of min_h).2 = exec checks w.
Proof.
  unfold analyze_frame.
  destruct (find_roads _ res) as [[|e] polys]; [|by exists []].
  destruct (vehicles_loop_run w now_of min_h polys
              (vehicle_ids (names (self w))) 0 (tracked_detections res))
    as (checks & Hchecks & Hrun).
  destruct (vehicles_loop ppt w now_of min_h polys _ 0 _) as [[o evs] w'].
  by exists checks.
Qed.

Lemma frames_loop_run w min_h frames :
  exists checks, Forall is_check checks /\
    (frames_loop ppt w min_h frames).2 = exec checks w.
Proof.
  revert w. induction frames as [|f frames IH]; intros w; simpl.
  - by exists [].
  - destruct (track f) as [res|]; [|apply IH].
    destruct (analyze_frame_run w res (now_at f) min_h) as (c1 & Hc1 & Hr1).
    destruct (analyze_frame ppt w res (now_at f) min_h) as [[o evs] w1].
    simpl in Hr1. destruct o; [|by exists c1].
    destruct (IH w1) as (c2 & Hc2 & Hr2).
    destruct (frames_loop ppt w1 min_h frames) as [[o2 evs2] w2]. simpl in *.
    exists (c1 ++ c2). split; [by apply Forall_app|].
    by rewrite run_app, <- Hr1.
Qed.

Lemma process_video_run w opened stop_btn min_h frames :
  exists checks, Forall is_check checks /\
    (process_video ppt w opened stop_btn min_h frames).2 = exec checks w.
Proof.
  unfold process_video. destruct opened; [|by exists []].
  destruct stop_btn; [by exists []|]. apply frames_loop_run.
Qed.

(** X1. Whatever the video and whatever the tracker gives for its frames,
    [process_video] changes the state only through calls of
    [_check_vehicle]: what it leaves is the state after a sequence of
    checks. So a session stays a session: after the video the log still
    holds at most one record per track id, all of penalized tracks. *)
Theorem process_video_is_a_run_of_checks (w : World) (opened stop_btn : bool)
    (min_h : Z) (frames : list Frame) :
  (exists checks, Forall is_check checks /\
     (process_video ppt w opened stop_btn min_h frames).2 = exec checks w) /\
  (reachable ppt model_names w ->
     reachable ppt model_names (process_video ppt w opened stop_btn min_h frames).2 /\
     forall id,
       (count_records id (log (process_video ppt w opened stop_btn min_h frames).2) <= 1)%nat /\
       (has_record id (log (process_video ppt w opened stop_btn min_h frames).2) ->
        id ∈ pen (process_video ppt w opened stop_btn min_h frames).2)).
Proof.
  destruct (process_video_run w opened stop_btn min_h frames)
    as (checks & Hchecks & Hrun).
  split; [by exists checks|].
  intros Hreach. rewrite Hrun.
  pose proof (reachable_run checks w Hreach) as Hreach'.
  split; [done|]. intros id.
  destruct (reachable_inv ppt model_names _ Hreach') as [_ Hs Hu _].
  split; [by apply count_records_unique|].
  intros (r & Hr & <-). by apply Hs.
Qed.

(** X2. A frame on which the tracker raises is skipped whole: the loop
    gives the same result, the same events and the same state as on the
    video without those frames. *)
Theorem failed_frames_are_skipped (w : World) (opened stop_btn : bool)
    (min_h : Z) (frames : list Frame) :
  process_video ppt w opened stop_btn min_h frames
    = process_video ppt w opened stop_btn min_h
        (filter (fun f => is_Some (track f)) frames).
Proof.
  unfold process_video. destruct opened; [|done]. destruct stop_btn; [done|].
  revert w. induction frames as [|f frames IH]; intros w; [done|].
  rewrite filter_cons. destruct (decide (is_Some (track f))) as [[res Hres]|Hnone].
  - simpl. rewrite Hres.
    destruct (analyze_frame ppt w res (now_at f) min_h) as [[o evs] w1].
    destruct o; [|done]. by rewrite IH.
  - simpl. destruct (track f) as [res|]; [|apply IH].
    exfalso. apply Hnone. by exists res.
Qed.


(** *** A video whose detections are well formed *)

Lemma road_loop_returns road (m : list polygon) clss : forall i,
  (i + length clss <= length m)%nat -> (road_loop road m i clss).1 = Returned.
Proof.
  induction clss as [|c clss IH]; intros i Hlen; simpl in *; [done|].
  case_bool_decide; [|apply IH; lia].
  destruct (lookup_lt_is_Some_2 m i) as [pts Hpts]; [lia|]. rewrite Hpts.
  specialize (IH (S i)). destruct (road_loop road m (S i) clss) as [o ps].
  simpl in *. apply IH. lia.
Qed.

Lemma find_roads_returns road names res :
  results_well_formed names res -> (find_roads road res).1 = Returned.
Proof.
  intros (b & Hb & _ & Hm). unfold find_roads.
  destruct (masks_xy res) as [m|]; [|done]. rewrite Hb.
  apply road_loop_returns. simpl. by apply Hm.
Qed.

Lemma check_returns w now box id cls min_h polys :
  is_Some (names (self w) !! cls) ->
  (check w now box id cls min_h polys).1.1 = Returned.
Proof.
  intros [vt Hvt].
  destruct (check_vehicle_path ppt w now box id cls min_h polys); try done.
  congruence.
Qed.

Lemma vehicles_loop_returns now_of min_h polys vehicle dets : forall w i,
  Forall (fun d => is_Some (names (self w) !! d.2.2)) dets ->
  (vehicles_loop ppt w now_of min_h polys vehicle i dets).1.1 = Returned.
Proof.
  induction dets as [|[box [tid cls]] dets IH]; intros w i Hd; simpl; [done|].
  apply Forall_cons in Hd as [Hcls Hd]. simpl in Hcls.
  case_bool_decide; [|by apply IH].
  pose proof (check_returns w (now_of i) box tid cls min_h polys Hcls) as Hret.
  destruct (check_settings ppt w (now_of i) box tid cls min_h polys) as (Hn & _).
  destruct (check w (now_of i) box tid cls min_h polys) as [[o evs] w1].
  simpl in *. subst o.
  specialize (IH w1 (S i)). rewrite Hn in IH. specialize (IH Hd).
  by destruct (vehicles_loop ppt w1 now_of min_h polys vehicle (S i) dets)
    as [[o2 evs2] w2].
Qed.

Lemma vehicles_loop_names now_of min_h polys vehicle dets : forall w i,
  names (self (vehicles_loop ppt w now_of min_h polys vehicle i dets).2)
    = names (self w).
Proof.
  induction dets as [|[box [tid cls]] dets IH]; intros w i; simpl; [done|].
  case_bool_decide; [|by apply IH].
  destruct (check_settings ppt w (now_of i) box tid cls min_h polys) as (Hn & _).
  destruct (check w (now_of i) box tid cls min_h polys) as [[o evs] w1].
  simpl in Hn. destruct o; [|done].
  specialize (IH w1 (S i)).
  destruct (vehicles_loop ppt w1 now_of min_h polys vehicle (S i) dets)
    as [[o2 evs2] w2]. simpl in *. congruence.
Qed.

Lemma zip_classes {A B} (P : Z -> Prop) (l3 : list Z) : forall (l1 : list A) (l2 : list B),
  Forall P l3 -> Forall (fun d => P d.2.2) (zip l1 (zip l2 l3)).
Proof.
  induction l3 as [|c l3 IH]; intros l1 l2 Hl3.
  - destruct l1, l2; constructor.
  - apply Forall_cons in Hl3 as [Hc Hl3].
    destruct l1 as [|a l1], l2 as [|b l2]; try constructor; [done|].
    by apply IH.
Qed.

Lemma tracked_detections_classes names res :
  results_well_formed names res ->
  Forall (fun d => is_Some (names !! d.2.2)) (tracked_detections res).
Proof.
  intros (b & Hb & Hcls & _). unfold tracked_detections. rewrite Hb.
  destruct (boxes_id b) as [ids|]; [|constructor].
  by apply (zip_classes (fun c => is_Some (names !! c))).
Qed.

Lemma analyze_frame_returns w res now_of min_h :
  results_well_formed (names (self w)) res ->
  (analyze_frame ppt w res now_of min_h).1.1 = Returned /\
  names (self (analyze_frame ppt w res now_of min_h).2) = names (self w).
Proof.
  intros Hres. split.
  - unfold analyze_frame.
    pose proof (find_roads_returns (road_ids (names (self w))) _ res Hres) as Hroads.
    destruct (find_roads _ res) as [o polys]. simpl in Hroads. subst o.
    pose proof (vehicles_loop_returns now_of min_h polys
                  (vehicle_ids (names (self w))) (tracked_detections res) w 0
                  (tracked_detections_classes _ res Hres)) as Hv.
    by destruct (vehicles_loop ppt w now_of min_h polys _ 0 _) as [[o evs] w'].
  - unfold analyze_frame.
    destruct (find_roads _ res) as [[|e] polys]; [|done].
    pose proof (vehicles_loop_names now_of min_h polys
                  (vehicle_ids (names (self w))) (tracked_detections res) w 0) as Hn.
    by destruct (vehicles_loop ppt w now_of min_h polys _ 0 _) as [[o evs] w'].
Qed.

(** X3. When the tracker's output is well formed on every frame (boxes
    present, every class a class of the model, a mask for every box),
    [process_video] returns: no exception leaves it, neither from the
    class-name lookup of a check (also when [vehicle_ids] is the fallback
    list, whose ids the model may not have) nor from the mask lookup. *)
Theorem well_formed_video_never_raises (w : World) (opened stop_btn : bool)
    (min_h : Z) (frames : list Frame) :
  Forall (frame_well_formed (names (self w))) frames ->
  (process_video ppt w opened stop_btn min_h frames).1.1 = Returned.
Proof.
  unfold process_video. destruct opened; [|done]. destruct stop_btn; [done|].
  revert w. induction frames as [|f frames IH]; intros w Hf; simpl; [done|].
  apply Forall_cons in Hf as [Hf0 Hf].
  destruct (track f) as [res|] eqn:Hres; [|by apply IH].
  destruct (analyze_frame_returns w res (now_at f) min_h (Hf0 res Hres))
    as [Hret Hnames].
  destruct (analyze_frame ppt w res (now_at f) min_h) as [[o evs] w1].
  simpl in *. subst o. specialize (IH w1). rewrite Hnames in IH.
  specialize (IH Hf).
  by destruct (frames_loop ppt w1 min_h frames) as [[o2 evs2] w2].
Qed.

(** *** Frames that do not touch the state *)

Lemma vehicles_loop_no_vehicle w now_of min_h polys vehicle dets : forall i,
  Forall (fun d => d.2.2 ∉ vehicle) dets ->
  vehicles_loop ppt w now_of min_h polys vehicle i dets = (Returned, [], w).
Proof.
  induction dets as [|[box [tid cls]] dets IH]; intros i Hd; simpl; [done|].
  apply Forall_cons in Hd as [Hcls Hd]. simpl in Hcls.
  case_bool_decide; [done|]. by apply IH.
Qed.

(** X4. A frame in which no detection with a track id is of a vehicle
    class leaves the whole state as it was, and no vehicle is drawn: so a
    frame without boxes, or one on which tracking gave no ids, counts for
    no track, neither as on-road nor as off-road. *)
Theorem frame_without_tracked_vehicles_changes_nothing (w : World)
    (res : Results) (now_of : nat -> string) (min_h : Z) :
  Forall (fun d => d.2.2 ∉ vehicle_ids (names (self w))) (tracked_detections res) ->
  (analyze_frame ppt w res now_of min_h).2 = w /\
  forall evs, VehicleChecked evs ∉ (analyze_frame ppt w res now_of min_h).1.2.
Proof.
  intros Hd. unfold analyze_frame.
  destruct (find_roads _ res) as [[|e] polys].
  - rewrite (vehicles_loop_no_vehicle w now_of min_h polys _ _ 0 Hd). simpl.
    split; [done|]. intros evs. rewrite app_nil_r, list_elem_of_fmap.
    by intros (p & Hp & _).
  - simpl. split; [done|]. intros evs. rewrite list_elem_of_fmap.
    by intros (p & Hp & _).
Qed.

Lemma vehicles_loop_other_tracks now_of min_h polys vehicle id dets : forall w i,
  Forall (fun d => d.2.1 <> id) dets ->
  Forall (fun d => is_Some (names (self w) !! d.2.2)) dets ->
  (vehicles_loop ppt w now_of min_h polys vehicle i dets).1.1 = Returned /\
  tracker (vehicles_loop ppt w now_of min_h polys vehicle i dets).2 !! id
    = tracker w !! id /\
  (id ∈ pen (vehicles_loop ppt w now_of min_h polys vehicle i dets).2 -> id ∈ pen w) /\
  names (self (vehicles_loop ppt w now_of min_h polys vehicle i dets).2)
    = names (self w).
Proof.
  induction dets as [|[box [tid cls]] dets IH]; intros w i Hid Hn; simpl; [done|].
  apply Forall_cons in Hid as [Htid Hid]. apply Forall_cons in Hn as [Hcls Hn].
  simpl in Htid, Hcls.
  case_bool_decide; [|by apply IH].
  pose proof (check_returns w (now_of i) box tid cls min_h polys Hcls) as Hret.
  pose proof (check_counter_other ppt w (now_of i) box tid cls min_h polys id Htid)
    as Hc.
  pose proof (check_penalized_other ppt w (now_of i) box tid cls min_h polys id Htid)
    as Hp.
  destruct (check_settings ppt w (now_of i) box tid cls min_h polys) as (Hnames & _).
  destruct (check w (now_of i) box tid cls min_h polys) as [[o evs] w1].
  simpl in *. subst o.
  specialize (IH w1 (S i) Hid). rewrite Hnames in IH. specialize (IH Hn).
  destruct (vehicles_loop ppt w1 now_of min_h polys vehicle (S i) dets)
    as [[o2 evs2] w2]. simpl in *.
  destruct IH as (Ho & Ht & Hpen & Hnm). repeat split; [done | congruence | auto | congruence].
Qed.

Lemma vehicles_loop_without_roads now_of min_h vehicle id box cls post pre :
  forall w i,
  Forall (fun d => d.2.1 <> id) pre ->
  Forall (fun d => d.2.1 <> id) post ->
  Forall (fun d => is_Some (names (self w) !! d.2.2)) (pre ++ (box, (id, cls)) :: post) ->
  cls ∈ vehicle ->
  min_h <= box_height box ->
  id ∉ pen w ->
  (vehicles_loop ppt w now_of min_h [] vehicle i (pre ++ (box, (id, cls)) :: post)).1.1
    = Returned /\
  counter_of
    (vehicles_loop ppt w now_of min_h [] vehicle i (pre ++ (box, (id, cls)) :: post)).2 id
    = counter_of w id + 1.
Proof.
  induction pre as [|[box0 [tid0 cls0]] pre IH]; intros w i Hpre Hpost Hn Hv Hh Hp.
  - simpl in *. apply Forall_cons in Hn as [[vt Hcls] Hn]. simpl in Hcls.
    rewrite bool_decide_eq_true_2 by done.
    assert ((check w (now_of i) box id cls min_h []).1.1 = Returned /\
            tracker (check w (now_of i) box id cls min_h []).2 !! id
              = Some (counter_of w id + 1) /\
            names (self (check w (now_of i) box id cls min_h []).2) = names (self w))
      as (Hret & Hc & Hnames).
    { destruct (check_settings ppt w (now_of i) box id cls min_h []) as (Hnm & _).
      split; [|split; [|done]].
      - apply check_returns. by exists vt.
      - destruct (check_vehicle_path ppt w (now_of i) box id cls min_h []);
          cbn [snd]; rewrite ?log_violation_self, ?after_count_counter;
          try (lia || congruence || done). }
    destruct (check w (now_of i) box id cls min_h []) as [[o evs] w1].
    simpl in *. subst o.
    destruct (vehicles_loop_other_tracks now_of min_h [] vehicle id post w1 (S i) Hpost)
      as (Ho & Ht & _); [by rewrite Hnames|].
    destruct (vehicles_loop ppt w1 now_of min_h [] vehicle (S i) post)
      as [[o2 evs2] w2]. simpl in *.
    split; [done|]. unfold counter_of. by rewrite Ht, Hc.
  - apply Forall_cons in Hpre as [Htid Hpre]. simpl in Htid.
    rewrite <- app_comm_cons in Hn |- *. apply Forall_cons in Hn as [Hcls0 Hn].
    simpl in Hcls0. cbn [vehicles_loop].
    case_bool_decide; [|by apply IH].
    pose proof (check_returns w (now_of i) box0 tid0 cls0 min_h [] Hcls0) as Hret.
    pose proof (check_counter_other ppt w (now_of i) box0 tid0 cls0 min_h [] id Htid)
      as Hc.
    pose proof (check_penalized_other ppt w (now_of i) box0 tid0 cls0 min_h [] id Htid)
      as Hpen.
    destruct (check_settings ppt w (now_of i) box0 tid0 cls0 min_h []) as (Hnames & _).
    destruct (check w (now_of i) box0 tid0 cls0 min_h []) as [[o evs] w1].
    simpl in *. subst o.
    specialize (IH w1 (S i) Hpre Hpost). rewrite Hnames in IH.
    specialize (IH Hn Hv Hh).
    destruct IH as [Ho Hcount]; [by intros Hin; apply Hp, Hpen|].
    destruct (vehicles_loop ppt w1 now_of min_h [] vehicle (S i)
                (pre ++ (box, (id, cls)) :: post)) as [[o2 evs2] w2]. simpl in *.
    split; [done|]. rewrite Hcount. unfold counter_of. by rewrite Hc.
Qed.

(** X5. When the tracker gives no masks for a frame, the checks of that
    frame see no road polygon at all. So in such a frame, with any number
    of detections, all of classes of the model, a vehicle whose track id
    occurs once in the frame, that is not penalized and passes the size
    filter, counts as off-road wherever it stands: the frame is analysed
    to its end and the counter of the track has grown by exactly 1. *)
Theorem frame_without_masks_counts_off_road (w : World) (res : Results)
    (now_of : nat -> string) (min_h : Z) (box : Box) (id cls : Z)
    (pre post : list (Box * (Z * Z))) :
  masks_xy res = None ->
  tracked_detections res = pre ++ (box, (id, cls)) :: post ->
  Forall (fun d => d.2.1 <> id) (pre ++ post) ->
  Forall (fun d => is_Some (names (self w) !! d.2.2)) (tracked_detections res) ->
  cls ∈ vehicle_ids (names (self w)) ->
  min_h <= box_height box ->
  id ∉ pen w ->
  find_roads (road_ids (names (self w))) res = (Returned, []) /\
  (analyze_frame ppt w res now_of min_h).1.1 = Returned /\
  counter_of (analyze_frame ppt w res now_of min_h).2 id = counter_of w id + 1.
Proof.
  intros Hm Hd Hothers Hn Hv Hh Hp.
  assert (find_roads (road_ids (names (self w))) res = (Returned, [])) as Hroads.
  { unfold find_roads. by rewrite Hm. }
  split; [done|]. unfold analyze_frame. rewrite Hroads, Hd. rewrite Hd in Hn.
  apply Forall_app in Hothers as [Hpre Hpost].
  destruct (vehicles_loop_without_roads now_of min_h (vehicle_ids (names (self w)))
              id box cls post pre w 0 Hpre Hpost Hn Hv Hh Hp) as [Ho Hc].
  by destruct (vehicles_loop ppt w now_of min_h [] _ 0 _) as [[o evs] w'].
Qed.

(** *** Tracks do not disturb one another *)

(** X6. A check of one track leaves every other track alone: its counter,
    whether it is penalized, and its records in the log. *)
Theorem tracks_are_independent (w : World) (now : string) (box : Box)
    (id cls min_h : Z) (polys : list polygon) (id' : Z) :
  id <> id' ->
  tracker (check w now box id cls min_h polys).2 !! id' = tracker w !! id' /\
  (id' ∈ pen (check w now box id cls min_h polys).2 <-> id' ∈ pen w) /\
  filter (fun r => Vehicle_ID r = id') (log (check w now box id cls min_h polys).2)
    = filter (fun r => Vehicle_ID r = id') (log w).
Proof.
  intros Hne. split; [by apply check_counter_other|]. split.
  - split; [by apply check_penalized_other | apply check_penalized_grows].
  - destruct (check_vehicle_path ppt w now box id cls min_h polys); try done.
    cbn [snd]. rewrite log_violation_log. cbn [after_count set_tracker session_state].
    destruct (0 <? crop_size box); [|done].
    rewrite filter_app, filter_cons, filter_nil. simpl.
    rewrite decide_False by done. by rewrite app_nil_r.
Qed.

(** *** The log and the penalized set only grow *)

Lemma step_grows w a :
  a <> Reset ->
  log w `prefix_of` log (step w a) /\ pen w ⊆ pen (step w a).
Proof.
  intros Ha. destruct a as [now box id cls min_h polys| |]; [| |done].
  - cbn [do_action]. split; [|apply check_penalized_grows].
    destruct (check_vehicle_path ppt w now box id cls min_h polys); try done.
    cbn [snd]. rewrite log_violation_log. cbn [after_count set_tracker session_state].
    destruct (0 <? crop_size box); [|done]. by apply prefix_app_r.
  - done.
Qed.

(** X7. Records are never changed or removed once appended, and a track is
    never taken out of the penalized set, by anything but the reset: over
    any sequence of checks and script reruns the old log is a prefix of the
    new one and the old penalized set a subset of the new one. *)
Theorem log_and_penalized_only_grow (acts : list action) (w : World) :
  Forall (fun a => a <> Reset) acts ->
  log w `prefix_of` log (exec acts w) /\ pen w ⊆ pen (exec acts w).
Proof.
  revert w. induction acts as [|a acts IH]; intros w Hacts; [done|].
  apply Forall_cons in Hacts as [Ha Hacts]. rewrite run_cons.
  destruct (step_grows w a Ha) as [Hl Hp].
  destruct (IH (step w a) Hacts) as [Hl' Hp'].
  split; [by etrans | set_solver].
Qed.

(** *** What the log holds *)

Lemma records_step w a :
  names (self w) = model_names ->
  Forall (record_well_formed model_names) (log w) ->
  names (self (step w a)) = model_names /\
  Forall (record_well_formed model_names) (log (step w a)).
Proof.
  intros Hn Hl. destruct a as [now box id cls min_h polys| |];
    [|done|by split; [|constructor]].
  cbn [do_action].
  destruct (check_settings ppt w now box id cls min_h polys) as (Hn' & _).
  split; [congruence|].
  destruct (check_vehicle_path ppt w now box id cls min_h polys)
    as [ | | | | | vt Hh Hvt Hp Hr Hc ]; try done.
  cbn [snd]. rewrite log_violation_log. cbn [after_count set_tracker session_state].
  destruct (0 <? crop_size box); [|done].
  apply Forall_app. split; [done|]. constructor; [|constructor].
  split; [done|]. split; [done|]. exists cls. simpl. congruence.
Qed.

Lemma records_run acts : forall w,
  names (self w) = model_names ->
  Forall (record_well_formed model_names) (log w) ->
  Forall (record_well_formed model_names) (log (exec acts w)).
Proof.
  induction acts as [|a acts IH]; intros w Hn Hl; [done|].
  rewrite run_cons. destruct (records_step w a Hn Hl). by apply IH.
Qed.

(** X8. Every record of the log, at every point of a session, has the
    status ILLEGAL PARKING, names as its evidence the image file made of its
    own vehicle type and track id, and has a vehicle type that is the name
    of a class of the model. *)
Theorem log_records_are_well_formed (acts : list action) :
  Forall (record_well_formed model_names) (log (exec acts start)).
Proof. apply records_run; [done | constructor]. Qed.

Lemma draw_not_imwrite box c label : Forall (fun ev => ~ is_imwrite ev) (draw box c label).
Proof. destruct box as [[[x1 y1] x2] y2]. repeat constructor; by intros []. Qed.

(** X9. The evidence image and the record go together: a check writes an
    image exactly when it appends a record, then it writes one image, the
    crop of the box, to the evidence folder under the name the record
    carries; a check that appends nothing writes nothing. *)
Theorem image_written_iff_record_appended (w : World) (now : string) (box : Box)
    (id cls min_h : Z) (polys : list polygon) :
  (log (check w now box id cls min_h polys).2 = log w /\
   Forall (fun ev => ~ is_imwrite ev) (check w now box id cls min_h polys).1.2) \/
  (exists r evs,
     log (check w now box id cls min_h polys).2 = log w ++ [r] /\
     (check w now box id cls min_h polys).1.2
       = Imwrite (evidence_folder (self w) +:+ "/" +:+ Evidence r)
           (crop_rows box) (crop_cols box) :: evs /\
     Forall (fun ev => ~ is_imwrite ev) evs /\
     0 < crop_size box).
Proof.
  destruct (check_vehicle_path ppt w now box id cls min_h polys);
    try (left; split; [done|]; first [by constructor | apply draw_not_imwrite]).
  cbn [fst snd]. unfold _log_violation.
  destruct (Z.ltb_spec 0 (crop_size box)) as [Hc|Hc].
  - right. eexists. eexists. cbn [fst snd session_state violation_log].
    split; [reflexivity|]. split; [reflexivity|]. split; [|done].
    constructor; [by intros []|]. constructor; [by intros []|].
    apply draw_not_imwrite.
  - left. split; [done|]. apply draw_not_imwrite.
Qed.


(** *** Where the counters stand *)

Lemma counter_of_nonneg w id : counters_classified w -> 0 <= counter_of w id.
Proof.
  intros Hw. unfold counter_of.
  destruct (tracker w !! id) as [c|] eqn:E; simpl; [|lia]. by apply (Hw id c).
Qed.

Lemma classified_step w a :
  session_inv w -> counters_classified w -> counters_classified (step w a).
Proof.
  intros [Ht Hs Hu Hb] Hw.
  destruct a as [now box id cls min_h polys| |];
    [|intros i c Hic; simpl in Hic; try rewrite lookup_empty in Hic; done..].
  cbn [do_action].
  destruct (check_vehicle_path ppt w now box id cls min_h polys)
    as [ | | | vt Hh Hn Hp Hr | vt Hh Hn Hp Hr Hc | vt Hh Hn Hp Hr Hc ];
    try done; intros i c; cbn [snd];
    rewrite ?log_violation_self, ?log_violation_penalized;
    (destruct (decide (id = i)) as [<-|Hne];
      [ rewrite ?after_clean_counter, ?after_count_counter
      | rewrite ?after_clean_other, ?after_count_other by done ]).
  - intros [= <-]. cbn [after_clean set_tracker session_state self violation_threshold]. split; [done|].
    split; [done|]. intros Hp'. by destruct Hp.
  - apply Hw.
  - intros [= <-]. cbn [after_count set_tracker session_state self violation_threshold].
    pose proof (counter_of_nonneg w id Hw). split; [lia|].
    split; [done|]. intros Hp'. by destruct Hp.
  - apply Hw.
  - intros [= <-]. cbn [after_count set_tracker session_state self violation_threshold].
    pose proof (counter_of_nonneg w id Hw). specialize (Hb id Hp).
    split; [lia|]. split; [set_solver | intros _; lia].
  - intros Hic. cbn [after_count set_tracker session_state self violation_threshold].
    destruct (Hw i c Hic) as (H0 & Hnot & Hin). split; [done|].
    split; [intros Hp'; apply Hnot; set_solver | intros Hp'; apply Hin; set_solver].
Qed.

Lemma classified_run acts : forall w,
  session_inv w -> counters_classified w -> counters_classified (exec acts w).
Proof.
  induction acts as [|a acts IH]; intros w Hinv Hw; [done|].
  rewrite run_cons. apply IH; [by apply session_inv_step | by apply classified_step].
Qed.

(** X10. At every point of a session every counter is a non-negative
    integer; the counter of a track that is not penalized is at most the
    threshold, and the counter of a penalized track, when the instance has
    one, is exactly threshold + 1. So between two checks no track is ever
    over the threshold without being penalized. *)
Theorem counters_are_classified (acts : list action) :
  counters_classified (exec acts start).
Proof.
  apply classified_run; [apply session_inv_start|].
  intros i c Hic. simpl in Hic. try rewrite lookup_empty in Hic. done.
Qed.

(** X11. The countdown shown for a track under analysis: a check of a
    track that is not penalized, passes the size filter, is off-road and
    stays within the threshold draws the yellow box with the label
    Analyzing (r), where r = threshold - new counter, and in a session
    0 <= r < threshold. *)
Theorem analyzing_countdown_is_in_range (acts : list action) (now : string)
    (box : Box) (id cls min_h : Z) (polys : list polygon) (vt : string) :
  let w := exec acts start in
  min_h <= box_height box ->
  names (self w) !! cls = Some vt ->
  id ∉ pen w ->
  on_road_loop ppt (tolerance (self w)) polys (center_of box) = false ->
  counter_of w id + 1 <= threshold w ->
  (check w now box id cls min_h polys).1
    = (Returned,
       draw box (0, 255, 255)
         (label_analyzing vt id (threshold w - (counter_of w id + 1)))) /\
  0 <= threshold w - (counter_of w id + 1) < threshold w.
Proof.
  intros w Hh Hn Hp Hr Hc.
  assert (counters_classified w) as Hcl.
  { apply classified_run; [apply session_inv_start|].
    intros i c Hic. simpl in Hic. try rewrite lookup_empty in Hic. done. }
  pose proof (counter_of_nonneg w id Hcl) as H0.
  split; [|lia].
  destruct (check_vehicle_path ppt w now box id cls min_h polys);
    try (lia || congruence || done).
  replace vt0 with vt by congruence. done.
Qed.

(** *** An on-road observation clears the history *)

Lemma on_road_step w id a :
  id ∉ pen w -> observed_on_road ppt (self w) id a ->
  counter_of (step w a) id = 0 /\
  names (self (step w a)) = names (self w) /\
  tolerance (self (step w a)) = tolerance (self w) /\
  threshold (step w a) = threshold w.
Proof.
  intros Hp Ha. destruct a as [now box id' cls min_h polys| |]; simpl in Ha; [|done..].
  destruct Ha as (-> & Hh & [vt Hn] & Hr). cbn [do_action].
  destruct (check_settings ppt w now box id cls min_h polys) as (En & Et & Eth).
  split; [|done].
  unfold counter_of.
  destruct (check_vehicle_path ppt w now box id cls min_h polys);
    try (lia || congruence || done).
  cbn [snd]. by rewrite after_clean_counter.
Qed.

Lemma on_road_step_state w id a :
  id ∉ pen w -> observed_on_road ppt (self w) id a ->
  pen (step w a) = pen w /\ log (step w a) = log w.
Proof.
  intros Hp Ha. destruct a as [now box id' cls min_h polys| |]; simpl in Ha; [|done..].
  destruct Ha as (-> & Hh & [vt Hn] & Hr). cbn [do_action].
  destruct (check_vehicle_path ppt w now box id cls min_h polys);
    try (lia || congruence || done).
Qed.

Lemma off_road_quiet_step w id a :
  id ∉ pen w -> observed_off_road ppt (self w) id a ->
  counter_of w id + 1 <= threshold w ->
  pen (step w a) = pen w /\ log (step w a) = log w.
Proof.
  intros Hp Ha Hc. destruct a as [now box id' cls min_h polys| |]; simpl in Ha; [|done..].
  destruct Ha as (-> & Hh & [vt Hn] & Hr). cbn [do_action].
  destruct (check_vehicle_path ppt w now box id cls min_h polys);
    try (lia || congruence || done).
Qed.

Lemma off_road_quiet_run frames : forall w id,
  id ∉ pen w ->
  Forall (observed_off_road ppt (self w) id) frames ->
  counter_of w id + Z.of_nat (length frames) <= threshold w ->
  pen (exec frames w) = pen w /\ log (exec frames w) = log w.
Proof.
  induction frames as [|a frames IH]; intros w id Hp Hf Hc; [done|].
  apply Forall_cons in Hf as [Ha Hf]. simpl in Hc. rewrite run_cons.
  destruct (off_road_step ppt model_names w id a Hp Ha) as (Ec & En & Et & Eth & _).
  destruct (off_road_quiet_step w id a Hp Ha) as [Hpen Hlog]; [lia|].
  destruct (IH (step w a) id) as [Hpen' Hlog'].
  - by rewrite Hpen.
  - eapply Forall_impl; [exact Hf|]. intros b.
    by apply observed_off_road_settings.
  - lia.
  - split; congruence.
Qed.

(** X12. Only consecutive off-road frames count: once a track that is not
    penalized is observed on the road, whatever its counter was, up to
    threshold off-road observations may follow without a penalty and
    without a record, and the counter is then the number of those
    observations, not more. *)
Theorem on_road_observation_clears_history (w : World) (id : Z) (a : action)
    (offs : list action) :
  id ∉ pen w ->
  observed_on_road ppt (self w) id a ->
  Forall (observed_off_road ppt (self w) id) offs ->
  Z.of_nat (length offs) <= threshold w ->
  (id ∉ pen (exec (a :: offs) w)) /\
  counter_of (exec (a :: offs) w) id = Z.of_nat (length offs) /\
  log (exec (a :: offs) w) = log w.
Proof.
  intros Hp Ha Hoffs Hlen. rewrite run_cons.
  destruct (on_road_step w id a Hp Ha) as (Hc & Hn & Htol & Hth).
  destruct (on_road_step_state w id a Hp Ha) as (Hpen & Hlog).
  assert (Forall (observed_off_road ppt (self (step w a)) id) offs) as Hoffs'.
  { eapply Forall_impl; [exact Hoffs|]. intros b.
    by apply observed_off_road_settings. }
  assert (id ∉ pen (step w a)) as Hp1 by (by rewrite Hpen).
  destruct (off_road_run ppt model_names offs (step w a) id Hp1 Hoffs')
    as (Hp' & Hc' & _); [lia|].
  destruct (off_road_quiet_run offs (step w a) id Hp1 Hoffs') as [_ Hlog']; [lia|].
  split; [done|]. split; [lia | congruence].
Qed.


(** *** The entries of the counter dictionary *)

(** X13. The entry of a track is made the first time a check gets as far
    as counting it, and no check removes an entry: a check adds at most the
    entry of the track it checks; it adds it whenever the track passes the
    size filter, has a known class and is not penalized; and a check that is
    filtered out, or of a penalized track, leaves the dictionary as it was. *)
Theorem counter_entries_are_created_lazily (w : World) (now : string) (box : Box)
    (id cls min_h : Z) (polys : list polygon) :
  dom (tracker w) ⊆ dom (tracker (check w now box id cls min_h polys).2) /\
  dom (tracker (check w now box id cls min_h polys).2) ⊆ {[ id ]} ∪ dom (tracker w) /\
  (min_h <= box_height box -> is_Some (names (self w) !! cls) -> id ∉ pen w ->
     id ∈ dom (tracker (check w now box id cls min_h polys).2)) /\
  (box_height box < min_h \/ id ∈ pen w ->
     tracker (check w now box id cls min_h polys).2 = tracker w).
Proof.
  assert (forall i, i <> id ->
            tracker (check w now box id cls min_h polys).2 !! i = tracker w !! i)
    as Hother by (intros i Hi; by apply check_counter_other).
  assert (is_Some (tracker w !! id) ->
          is_Some (tracker (check w now box id cls min_h polys).2 !! id)) as Hkeep.
  { destruct (check_vehicle_path ppt w now box id cls min_h polys); cbn [snd];
      rewrite ?log_violation_self, ?after_clean_counter, ?after_count_counter;
      eauto. }
  split; [|split; [|split]].
  - intros i. rewrite !elem_of_dom. destruct (decide (i = id)) as [->|Hi]; [done|].
    by rewrite Hother.
  - intros i. rewrite elem_of_union, elem_of_singleton, !elem_of_dom.
    destruct (decide (i = id)) as [->|Hi]; [by left|]. rewrite Hother by done.
    by right.
  - intros Hh [vt Hn] Hp. rewrite elem_of_dom.
    destruct (check_vehicle_path ppt w now box id cls min_h polys); cbn [snd];
      rewrite ?log_violation_self, ?after_clean_counter, ?after_count_counter;
      try (lia || congruence || done); eauto.
  - intros Hcase.
    destruct (check_vehicle_path ppt w now box id cls min_h polys); try done;
      destruct Hcase; (lia || done).
Qed.

(** *** Penalties outlive the instance, counters do not *)

(** X14. After a script rerun the penalized set and the log are what they
    were and every counter starts again from 0: a track penalized before
    the rerun is still drawn as PENALIZED by its next check, which changes
    nothing, so it gets no second record. *)
Theorem penalties_survive_a_rerun (w : World) (id : Z) (now : string) (box : Box)
    (cls min_h : Z) (polys : list polygon) (vt : string) :
  id ∈ pen w ->
  min_h <= box_height box ->
  model_names !! cls = Some vt ->
  check (script_rerun model_names w) now box id cls min_h polys
    = (Returned, draw box (255, 0, 0) (label_penalized vt id),
       script_rerun model_names w) /\
  log (script_rerun model_names w) = log w /\
  pen (script_rerun model_names w) = pen w /\
  forall i, counter_of (script_rerun model_names w) i = 0.
Proof.
  intros Hp Hh Hn. split; [|done].
  unfold _check_vehicle. apply Z.ltb_ge in Hh. rewrite Hh.
  cbn [script_rerun script_start __init__ self names]. rewrite Hn.
  by rewrite decide_True.
Qed.

End MoreProperties.

(** *** The evidence crop *)

(** X15. The evidence crop is the box clamped to the frame: for a box
    whose right and lower edges are not negative, the crop has
    max 0 (min 720 y2 - max 0 y1) rows and max 0 (min 1280 x2 - max 0 x1)
    columns, so evidence is saved exactly when the clamped box has a
    positive width and a positive height; for a box inside the frame the
    crop is the box itself. *)
Theorem crop_is_the_box_clamped_to_the_frame (x1 y1 x2 y2 : Z) :
  0 <= x2 -> 0 <= y2 ->
  crop_rows (x1, y1, x2, y2) = Z.max 0 (Z.min 720 y2 - Z.max 0 y1) /\
  crop_cols (x1, y1, x2, y2) = Z.max 0 (Z.min 1280 x2 - Z.max 0 x1) /\
  (0 < crop_size (x1, y1, x2, y2) <->
     Z.max 0 x1 < Z.min 1280 x2 /\ Z.max 0 y1 < Z.min 720 y2) /\
  (0 <= x1 -> x1 <= x2 -> x2 <= 1280 -> 0 <= y1 -> y1 <= y2 -> y2 <= 720 ->
     crop_size (x1, y1, x2, y2) = (y2 - y1) * (x2 - x1) * 3).
Proof.
  intros Hx Hy.
  assert (crop_rows (x1, y1, x2, y2) = Z.max 0 (Z.min 720 y2 - Z.max 0 y1)) as Hr.
  { unfold crop_rows, slice_len, slice_index, FRAME_H.
    destruct (Z.ltb_spec (Z.min 720 y2) 0), (Z.ltb_spec (Z.max 0 y1) 0); lia. }
  assert (crop_cols (x1, y1, x2, y2) = Z.max 0 (Z.min 1280 x2 - Z.max 0 x1)) as Hc.
  { unfold crop_cols, slice_len, slice_index, FRAME_W.
    destruct (Z.ltb_spec (Z.min 1280 x2) 0), (Z.ltb_spec (Z.max 0 x1) 0); lia. }
  split; [done|]. split; [done|]. unfold crop_size. rewrite Hr, Hc. split.
  - split; [nia | intros [? ?]; nia].
  - intros. f_equal. f_equal; lia.
Qed.

(** *** The classes of the model *)

Lemma elem_of_filtered_ids (P : string -> bool) (names : gmap Z string) (c : Z) :
  c ∈ (filter (fun kv => P kv.2 = true) (map_to_list names)).*1 <->
  exists v, names !! c = Some v /\ P v = true.
Proof.
  rewrite list_elem_of_fmap. split.
  - intros ([c' v] & -> & Hin). apply list_elem_of_filter in Hin as [HP Hin].
    apply elem_of_map_to_list in Hin. by exists v.
  - intros (v & Hv & HP). exists (c, v). split; [done|].
    apply list_elem_of_filter. split; [done|]. by apply elem_of_map_to_list.
Qed.

(** X16. The class ids of [__init__]: the road ids are exactly the classes
    of the model whose lower-cased name contains road or yol; the vehicle
    ids are exactly the classes whose lower-cased name contains car,
    vehicle, truck or bus when there is such a class, and the fallback
    0, 1, 2, 3 otherwise, whatever classes the model has: the list of
    vehicle ids is never empty. *)
Theorem class_ids_of_the_model (names : gmap Z string) :
  (forall c, c ∈ road_ids names <->
     exists v, names !! c = Some v /\ is_road_name v = true) /\
  vehicle_ids names <> [] /\
  ((exists c v, names !! c = Some v /\ is_vehicle_name v = true) ->
     forall c, c ∈ vehicle_ids names <->
       exists v, names !! c = Some v /\ is_vehicle_name v = true) /\
  ((forall c v, names !! c = Some v -> is_vehicle_name v = false) ->
     vehicle_ids names = [0; 1; 2; 3]).
Proof.
  split; [intros c; apply elem_of_filtered_ids|].
  unfold vehicle_ids, matching_vehicle_ids.
  pose proof (elem_of_filtered_ids is_vehicle_name names) as Hin.
  destruct ((filter (fun kv => is_vehicle_name kv.2 = true) (map_to_list names)).*1)
    as [|c0 ids] eqn:E.
  - split; [done|]. split; [|done].
    intros (c & v & Hv & HP). exfalso.
    assert (c ∈ @nil Z) as Habs by (apply Hin; eauto).
    by apply elem_of_nil in Habs.
  - split; [done|]. split; [intros _ c; apply Hin|].
    intros Hnone. exfalso.
    assert (c0 ∈ c0 :: ids) as H0 by left.
    apply Hin in H0 as (v & Hv & HP). rewrite (Hnone c0 v Hv) in HP. done.
Qed.

(** *** The images of the report *)

Section ReportImageProperties.

Variable exists_file : string -> bool.
Variable img_path_of : string -> string -> string.

Local Abbreviation cells := (image_cells exists_file img_path_of).

Lemma image_cells_spec folder df : forall idx row col p,
  (row, col, p) ∈ cells folder idx df <->
  exists i r, df !! i = Some r /\ row = idx + Z.of_nat i + 1 /\ col = 4 /\
    p = img_path_of folder (Evidence r) /\ exists_file p = true.
Proof.
  induction df as [|r0 df IH]; intros idx row col p; simpl.
  - split; [intros H; by apply elem_of_nil in H | by intros (i & r & H & _)].
  - destruct (exists_file (img_path_of folder (Evidence r0))) eqn:E.
    + rewrite elem_of_cons, IH. split.
      * intros [[= -> -> ->] | (i & r & Hi & -> & -> & -> & Hp)].
        -- exists 0%nat, r0. repeat split; [lia | done].
        -- exists (S i), r. repeat split; [done | lia | done].
      * intros ([|i] & r & Hi & -> & -> & -> & Hp).
        -- left. simpl in Hi. injection Hi as <-. f_equal. f_equal. lia.
        -- right. exists i, r. repeat split; [done | lia | done].
    + rewrite IH. split.
      * intros (i & r & Hi & -> & -> & -> & Hp).
        exists (S i), r. repeat split; [done | lia | done].
      * intros ([|i] & r & Hi & -> & -> & -> & Hp).
        -- simpl in Hi. injection Hi as <-. congruence.
        -- exists i, r. repeat split; [done | lia | done].
Qed.

Lemma image_cells_rows_above folder df : forall idx row,
  row ∈ (cells folder idx df).*1.*1 -> idx < row.
Proof.
  intros idx row Hrow.
  apply list_elem_of_fmap in Hrow as ([row' col] & -> & Hrow).
  apply list_elem_of_fmap in Hrow as ([[row'' col'] p] & [= <- <-] & Hin).
  apply image_cells_spec in Hin as (i & r & _ & -> & _). simpl. lia.
Qed.

(** X17. The loop that embeds the images: an image is inserted for exactly
    the records whose file exists, in column 4 of the sheet row of its own
    record (row index + 1, below the header row), no two images in the same
    row; a record whose file is missing gets no image and does not move
    the images of the others. *)
Theorem report_images_sit_in_their_rows (folder : string)
    (df : list ViolationRecord) :
  (forall row col p,
     (row, col, p) ∈ cells folder 0 df <->
     exists i r, df !! i = Some r /\ row = Z.of_nat i + 1 /\ col = 4 /\
       p = img_path_of folder (Evidence r) /\ exists_file p = true) /\
  NoDup (cells folder 0 df).*1.*1 /\
  (length (cells folder 0 df) <= length df)%nat.
Proof.
  split; [intros row col p; rewrite image_cells_spec; by setoid_rewrite Z.add_0_l|].
  generalize 0. induction df as [|r0 df IH]; intros idx; simpl.
  - split; [constructor | lia].
  - destruct (IH (idx + 1)) as [Hnd Hlen].
    destruct (exists_file (img_path_of folder (Evidence r0))); simpl.
    + split; [|lia]. constructor; [|done].
      intros Hin. apply image_cells_rows_above in Hin. lia.
    + split; [done | lia].
Qed.

End ReportImageProperties.

(** *** The script and the report *)

Section ScriptProperties.

Variable ppt : polygon -> point -> Q.
Variable model_names : gmap Z string.
Variable workbook : Type.
Variable write_sheet : list ViolationRecord -> attempt workbook.
Variable embed_images : workbook -> string -> list ViolationRecord -> attempt (list Byte.byte).

Local Abbreviation exec := (run ppt model_names).
Local Abbreviation start := (script_start model_names first_visit).
Local Abbreviation report := (generate_report workbook write_sheet embed_images).
Local Abbreviation one_run := (script_run ppt model_names workbook write_sheet embed_images).
Local Abbreviation runs := (script_runs ppt model_names workbook write_sheet embed_images).

Lemma step_files w a :
  excel_name (self w) = "Parking_Violation_Report.xlsx" ->
  evidence_folder (self w) = "evidence" ->
  excel_name (self (do_action ppt model_names w a)) = "Parking_Violation_Report.xlsx" /\
  evidence_folder (self (do_action ppt model_names w a)) = "evidence".
Proof.
  intros He Hf. destruct a as [now box id cls min_h polys| |]; [|done..].
  cbn [do_action].
  destruct (check_vehicle_path ppt w now box id cls min_h polys); cbn [snd];
    rewrite ?log_violation_self; done.
Qed.

Lemma run_files acts : forall w,
  excel_name (self w) = "Parking_Violation_Report.xlsx" ->
  evidence_folder (self w) = "evidence" ->
  excel_name (self (exec acts w)) = "Parking_Violation_Report.xlsx" /\
  evidence_folder (self (exec acts w)) = "evidence".
Proof.
  induction acts as [|a acts IH]; intros w He Hf; [done|].
  rewrite run_cons. destruct (step_files w a He Hf). by apply IH.
Qed.

Lemma report_returns w : (report w).1 = Returned.
Proof.
  unfold generate_report, report_body.
  destruct (violation_log (session_state w)) as [|r l]; [done|].
  destruct (write_sheet (r :: l)) as [wb|e]; [|done].
  by destruct (embed_images wb _ _).
Qed.

(** X18. When the log is not empty and the spreadsheet writer does not
    raise, the report shows, in this order, the notice, the number of
    records of the log, one download of the written buffer under the name
    Parking_Violation_Report.xlsx, and the table of the log as it stands,
    in which no track id occurs twice; the images were looked up in the
    folder evidence. *)
Theorem successful_report_shows_the_log (acts : list action) (wb : workbook)
    (buffer : list Byte.byte) :
  let w := exec acts start in
  violation_log (session_state w) <> [] ->
  write_sheet (violation_log (session_state w)) = Done wb ->
  embed_images wb "evidence" (violation_log (session_state w)) = Done buffer ->
  report w
    = (Returned,
       [StInfo "Embedding images into Excel...";
        StSuccess ("✅ Total "
                   +:+ pretty (Z.of_nat (length (violation_log (session_state w))))
                   +:+ " violations reported.");
        StDownloadButton "📥 Download Report with Images" buffer
          "Parking_Violation_Report.xlsx" XLSX_MIME;
        StDataframe (violation_log (session_state w))]) /\
  NoDup (Vehicle_ID <$> violation_log (session_state w)).
Proof.
  intros w Hlog Hw He.
  destruct (run_files acts start eq_refl eq_refl) as [Hname Hfolder].
  fold w in Hname, Hfolder. split.
  - unfold generate_report, report_body.
    destruct (violation_log (session_state w)) as [|r l] eqn:E; [done|].
    rewrite Hw, Hfolder, He, Hname. done.
  - apply (session_inv_run ppt model_names acts start (session_inv_start model_names)).
Qed.

Lemma script_run_reachable st inp :
  reachable ppt model_names (script_start model_names st) ->
  reachable ppt model_names (script_start model_names (one_run st inp).2).
Proof.
  intros Hreach. unfold script_run.
  destruct (reset_button inp).
  - apply (reachable_run ppt model_names [Reset] _ Hreach).
  - destruct (uploaded_file inp) as [v|].
    + destruct (process_video_run ppt model_names
                  (script_start model_names st) (video_opened v) (stop_button inp)
                  (min_h_val inp) (video_frames v)) as (checks & _ & Hrun).
      pose proof (reachable_run ppt model_names checks _ Hreach) as Hreach'.
      rewrite <- Hrun in Hreach'.
      destruct (process_video ppt _ _ _ _ _) as [[o evs] w]. simpl in Hreach'.
      destruct o.
      * destruct (report w) as [o' revs].
        apply (reachable_run ppt model_names [Rerun] _ Hreach').
      * apply (reachable_run ppt model_names [Rerun] _ Hreach').
    + apply (reachable_run ppt model_names [Rerun] _ Hreach).
Qed.

(** X19. Whatever the user does over any number of script runs (reset,
    upload, stop, any videos, any output of the tracker, runs that end in an
    exception), the instance that the next run builds is in a state of a
    session: its log holds at most one record per track id, every recorded
    track is penalized, and its counters are all 0. *)
Theorem script_runs_keep_the_session_sound (inps : list Inputs) (id : Z) :
  let w := script_start model_names (runs first_visit inps) in
  reachable ppt model_names w /\
  (count_records id (violation_log (session_state w)) <= 1)%nat /\
  (has_record id (violation_log (session_state w)) ->
     id ∈ penalized_ids (session_state w)) /\
  counter_of w id = 0.
Proof.
  intros w.
  assert (reachable ppt model_names w) as Hreach.
  { unfold w, script_runs.
    assert (reachable ppt model_names (script_start model_names first_visit)) as H0
      by (by exists []).
    revert H0. generalize first_visit.
    induction inps as [|inp inps IH]; intros st Hst; [done|].
    simpl. apply IH. by apply script_run_reachable. }
  split; [done|].
  destruct (reachable_inv ppt model_names w Hreach) as [_ Hs Hu _].
  split; [by apply count_records_unique|]. split; [|done].
  intros (r & Hr & <-). by apply Hs.
Qed.

(** X20. A run with the stop button pressed reads no frame: it leaves the
    session state as the run found it, and all it shows is the report on
    the log as it stands. *)
Theorem stop_run_only_reports (st : RawSession) (inp : Inputs) (v : Video) :
  reset_button inp = false ->
  uploaded_file inp = Some v ->
  stop_button inp = true ->
  (one_run st inp).2 = persist (session_state (script_start model_names st)) /\
  (one_run st inp).1.2 = UiEvent <$> (report (script_start model_names st)).2 /\
  (one_run st inp).1.1 = Finished.
Proof.
  intros Hr Hu Hs. unfold script_run, process_video. rewrite Hr, Hu, Hs.
  pose proof (report_returns (script_start model_names st)) as Hret.
  destruct (video_opened v);
    destruct (report (script_start model_names st)) as [o revs];
    simpl in *; by subst o.
Qed.

End ScriptProperties.

(** *** The names of the evidence files *)

Lemma no_underscore_app s1 s2 :
  no_underscore (s1 +:+ s2) = no_underscore s1 && no_underscore s2.
Proof.
  induction s1 as [|c s1 IH]; simpl; [done|]. rewrite IH. by rewrite andb_assoc.
Qed.

Lemma no_underscore_digit x s :
  no_underscore s = true -> no_underscore (String (pretty_N_char x) s) = true.
Proof.
  intros Hs. simpl. rewrite Hs, andb_true_r.
  unfold pretty_N_char. by repeat case_match.
Qed.

Lemma no_underscore_pretty_N_go x : forall s,
  no_underscore s = true -> no_underscore (pretty_N_go x s) = true.
Proof.
  induction (N.lt_wf_0 x) as [x _ IH]; intros s Hs.
  destruct (decide (x = 0)%N) as [->|Hx]; [by rewrite pretty_N_go_0|].
  rewrite pretty_N_go_step by lia. apply IH.
  - apply N.div_lt; lia.
  - by apply no_underscore_digit.
Qed.

Lemma no_underscore_pretty_Z (z : Z) : no_underscore (pretty z) = true.
Proof.
  assert (forall n : N, no_underscore (pretty n) = true) as HN.
  { intros n. unfold pretty, pretty_N. case_decide; [done|].
    by apply no_underscore_pretty_N_go. }
  destruct z as [|p|p]; [done | apply HN|].
  change (pretty (Z.neg p)) with ("-" +:+ pretty (N.pos p)).
  rewrite no_underscore_app. by rewrite HN.
Qed.

Lemma split_at_last_underscore v1 : forall v2 p1 p2,
  no_underscore p1 = true -> no_underscore p2 = true ->
  v1 +:+ String underscore p1 = v2 +:+ String underscore p2 -> v1 = v2 /\ p1 = p2.
Proof.
  induction v1 as [|c v1 IH]; intros [|c' v2] p1 p2 H1 H2 Heq; simpl in Heq.
  - by injection Heq as ->.
  - injection Heq as <- ->. rewrite no_underscore_app in H1. simpl in H1.
    by rewrite andb_false_r in H1.
  - injection Heq as -> <-. rewrite no_underscore_app in H2. simpl in H2.
    by rewrite andb_false_r in H2.
  - injection Heq as -> Heq. destruct (IH v2 p1 p2 H1 H2 Heq) as [-> ->]. done.
Qed.

Lemma append_cancel_r (t s1 : string) : forall s2,
  s1 +:+ t = s2 +:+ t -> s1 = s2.
Proof.
  assert (forall s u : string, String.length (s +:+ u)
            = (String.length s + String.length u)%nat) as Hlen.
  { intros s u. induction s as [|c s IH]; simpl; [done | by rewrite IH]. }
  induction s1 as [|c s1 IH]; intros [|c' s2] Heq; simpl in Heq.
  - done.
  - apply (f_equal String.length) in Heq. simpl in Heq. rewrite !Hlen in Heq. simpl in Heq. lia.
  - apply (f_equal String.length) in Heq. simpl in Heq. rewrite !Hlen in Heq. simpl in Heq. lia.
  - injection Heq as -> Heq. by rewrite (IH s2 Heq).
Qed.

Lemma img_name_of_inj v1 i1 v2 i2 :
  img_name_of v1 i1 = img_name_of v2 i2 -> v1 = v2 /\ i1 = i2.
Proof.
  unfold img_name_of. intros Heq.
  change (v1 +:+ String underscore (pretty i1 +:+ ".jpg")
          = v2 +:+ String underscore (pretty i2 +:+ ".jpg")) in Heq.
  apply split_at_last_underscore in Heq as [-> Heq];
    [|rewrite no_underscore_app, no_underscore_pretty_Z; done..].
  split; [done|]. apply append_cancel_r in Heq. by apply (inj pretty).
Qed.

Section EvidenceNames.

Variable ppt : polygon -> point -> Q.
Variable model_names : gmap Z string.

(** X21. The file name of an evidence image tells the vehicle type and the
    track id apart from every other pair, and so, at every point of a
    session, no two records of the log name the same image file: within a
    session log no evidence image is overwritten by another record's. *)
Theorem evidence_names_are_unique (acts : list action) :
  (forall v1 i1 v2 i2,
     img_name_of v1 i1 = img_name_of v2 i2 -> v1 = v2 /\ i1 = i2) /\
  NoDup (Evidence <$>
    violation_log (session_state
      (run ppt model_names acts (script_start model_names first_visit)))).
Proof.
  split; [apply img_name_of_inj|].
  pose proof (session_inv_run ppt model_names acts _ (session_inv_start model_names))
    as [_ _ Hu _].
  pose proof (records_run ppt model_names acts
                (script_start model_names first_visit) eq_refl (Forall_nil_2 _)) as Hwf.
  revert Hu Hwf.
  generalize (violation_log (session_state
    (run ppt model_names acts (script_start model_names first_visit)))).
  induction l as [|r l IH]; intros Hu Hwf; [constructor|].
  rewrite fmap_cons in Hu. apply NoDup_cons in Hu as [Hr Hu].
  apply Forall_cons in Hwf as [(_ & Hev & _) Hwf].
  rewrite fmap_cons. apply NoDup_cons. split; [|by apply IH].
  intros Hin. apply list_elem_of_fmap in Hin as (r' & Heq & Hr').
  apply Hr. apply list_elem_of_fmap. exists r'. split; [|done].
  eapply Forall_forall in Hwf as (_ & Hev' & _); [|exact Hr'].
  rewrite Hev, Hev' in Heq. by apply img_name_of_inj in Heq as [_ ->].
Qed.

End EvidenceNames.

(** ** The further properties on the worked scene *)

Lemma demo_start_reachable : reachable rect_signed_distance demo_names demo_start.
Proof. by exists []. Defined.

Lemma process_video_witness :
  (count_records 7 (violation_log (session_state
     (process_video rect_signed_distance demo_start true false 50
        (replicate 16 demo_frame)).2)) <= 1)%nat.
Proof.
  destruct (process_video_is_a_run_of_checks rect_signed_distance demo_names
              demo_start true false 50 (replicate 16 demo_frame)) as [_ H].
  destruct (H demo_start_reachable) as [_ H7]. exact (proj1 (H7 7)).
Defined.

Lemma demo_frame_well_formed : frame_well_formed (names (self demo_start)) demo_frame.
Proof.
  intros res [= <-]. eexists. split; [reflexivity|]. split.
  - repeat constructor; [by exists "road" | by exists "car"].
  - intros m [= <-]. simpl. lia.
Defined.

Lemma well_formed_video_witness :
  (process_video rect_signed_distance demo_start true false 50
     [demo_frame; demo_frame_failed; demo_frame]).1.1 = Returned.
Proof.
  apply (well_formed_video_never_raises rect_signed_distance demo_start true false 50
           [demo_frame; demo_frame_failed; demo_frame]).
  apply Forall_cons. split; [exact demo_frame_well_formed|].
  apply Forall_cons. split; [intros res Hres; discriminate Hres|].
  apply Forall_cons. split; [exact demo_frame_well_formed | apply Forall_nil_2].
Defined.

Lemma frame_without_ids_witness :
  (analyze_frame rect_signed_distance demo_analyzing demo_results_no_ids demo_clock 50).2
    = demo_analyzing.
Proof.
  apply (frame_without_tracked_vehicles_changes_nothing rect_signed_distance
           demo_analyzing demo_results_no_ids demo_clock 50).
  constructor.
Defined.

Lemma frame_without_masks_witness :
  on_road_loop rect_signed_distance (tolerance (self demo_start)) [demo_road]
    (center_of box_on_road) = true /\
  (analyze_frame rect_signed_distance demo_start demo_results_no_masks
     demo_clock 50).1.1 = Returned /\
  counter_of (analyze_frame rect_signed_distance demo_start demo_results_no_masks
                demo_clock 50).2 7 = counter_of demo_start 7 + 1.
Proof.
  split; [vm_compute; reflexivity|].
  refine (proj2 (frame_without_masks_counts_off_road rect_signed_distance
           demo_start demo_results_no_masks demo_clock 50 box_on_road 7 1
           [(box_off_road, (3, 1))] [(box_near_road, (9, 1))] _ _ _ _ _ _ _)).
  - reflexivity.
  - reflexivity.
  - repeat constructor; discriminate.
  - repeat constructor; by exists "car".
  - apply (bool_decide_unpack _). vm_compute. exact I.
  - vm_compute. discriminate.
  - exact demo_start_lacks_7.
Defined.

Lemma tracks_are_independent_witness :
  violation_tracker (self (_check_vehicle rect_signed_distance demo_fifteen
    "2024-01-01 12:00:01" box_off_road 8 1 50 [demo_road]).2) !! 7
  = violation_tracker (self demo_fifteen) !! 7.
Proof.
  apply (tracks_are_independent rect_signed_distance demo_fifteen
           "2024-01-01 12:00:01" box_off_road 8 1 50 [demo_road] 7).
  discriminate.
Defined.

Lemma log_only_grows_witness :
  violation_log (session_state demo_penalized) `prefix_of`
    violation_log (session_state
      (run rect_signed_distance demo_names [demo_check box_off_road; Rerun] demo_penalized)).
Proof.
  apply (log_and_penalized_only_grow rect_signed_distance demo_names
           [demo_check box_off_road; Rerun] demo_penalized).
  repeat constructor; discriminate.
Defined.

Lemma countdown_witness :
  0 <= violation_threshold (self
         (run rect_signed_distance demo_names (replicate 10 (demo_check box_off_road))
            (script_start demo_names first_visit)))
       - (counter_of
            (run rect_signed_distance demo_names (replicate 10 (demo_check box_off_road))
               (script_start demo_names first_visit)) 7 + 1)
    < violation_threshold (self
         (run rect_signed_distance demo_names (replicate 10 (demo_check box_off_road))
            (script_start demo_names first_visit))).
Proof.
  apply (analyzing_countdown_is_in_range rect_signed_distance demo_names
           (replicate 10 (demo_check box_off_road)) "2024-01-01 12:00:01"
           box_off_road 7 1 50 [demo_road] "car").
  - vm_compute. discriminate.
  - vm_compute. reflexivity.
  - apply (bool_decide_unpack _). vm_compute. exact I.
  - vm_compute. reflexivity.
  - vm_compute. discriminate.
Defined.

Lemma on_road_clears_witness :
  counter_of demo_analyzing 7 = 10 /\
  (7 ∉ penalized_ids (session_state
     (run rect_signed_distance demo_names
        (demo_check box_on_road :: replicate 10 (demo_check box_off_road))
        demo_analyzing))) /\
  counter_of
    (run rect_signed_distance demo_names
       (demo_check box_on_road :: replicate 10 (demo_check box_off_road))
       demo_analyzing) 7 = 10.
Proof.
  split; [vm_compute; reflexivity|].
  destruct (on_road_observation_clears_history rect_signed_distance demo_names
              demo_analyzing 7 (demo_check box_on_road)
              (replicate 10 (demo_check box_off_road))) as (H1 & H2 & _).
  - exact demo_analyzing_lacks_7.
  - split; [reflexivity|]. split; [vm_compute; discriminate|].
    split; [exists "car"; vm_compute; reflexivity | vm_compute; reflexivity].
  - apply Forall_replicate. split; [reflexivity|]. split; [vm_compute; discriminate|].
    split; [exists "car"; vm_compute; reflexivity | vm_compute; reflexivity].
  - vm_compute. discriminate.
  - split; [exact H1 | exact H2].
Defined.

Lemma counter_entry_witness :
  7 ∈ dom (violation_tracker (self (_check_vehicle rect_signed_distance demo_start
    "2024-01-01 12:00:01" box_on_road 7 1 50 [demo_road]).2)).
Proof.
  apply (counter_entries_are_created_lazily rect_signed_distance demo_start
           "2024-01-01 12:00:01" box_on_road 7 1 50 [demo_road]).
  - vm_compute. discriminate.
  - by exists "car".
  - exact demo_start_lacks_7.
Defined.

Lemma penalties_survive_witness :
  _check_vehicle rect_signed_distance (script_rerun demo_names demo_penalized)
    "2024-01-01 12:00:01" box_on_road 7 1 50 [demo_road]
  = (Returned, draw box_on_road (255, 0, 0) (label_penalized "car" 7),
     script_rerun demo_names demo_penalized).
Proof.
  apply (penalties_survive_a_rerun rect_signed_distance demo_names demo_penalized
           7 "2024-01-01 12:00:01" box_on_road 1 50 [demo_road] "car").
  - exact demo_penalized_has_7.
  - vm_compute. discriminate.
  - reflexivity.
Defined.

Lemma crop_witness :
  crop_rows (600, 600, 1400, 800) = 120 /\
  crop_cols (600, 600, 1400, 800) = 680 /\
  0 < crop_size (600, 600, 1400, 800).
Proof.
  destruct (crop_is_the_box_clamped_to_the_frame 600 600 1400 800)
    as (Hr & Hc & Hs & _); [lia | lia |].
  split; [exact Hr|]. split; [exact Hc|]. apply Hs. lia.
Defined.

Lemma class_ids_witness :
  (1 ∈ vehicle_ids demo_names <->
     exists v, demo_names !! 1 = Some v /\ is_vehicle_name v = true) /\
  vehicle_ids demo_names_araba = [0; 1; 2; 3].
Proof.
  split.
  - apply (class_ids_of_the_model demo_names). by exists 1, "car".
  - apply (class_ids_of_the_model demo_names_araba).
    intros c v Hv. unfold demo_names_araba in Hv.
    destruct (decide (c = 0)) as [->|H0];
      [rewrite lookup_insert_eq in Hv; by injection Hv as <-|].
    rewrite lookup_insert_ne in Hv by done.
    destruct (decide (c = 1)) as [->|H1];
      [rewrite lookup_singleton_eq in Hv; by injection Hv as <-|].
    by rewrite lookup_singleton_ne in Hv.
Defined.

Lemma successful_report_witness :
  NoDup (Vehicle_ID <$> violation_log (session_state
    (run rect_signed_distance demo_names (replicate 16 (demo_check box_near_road))
       (script_start demo_names first_visit)))).
Proof.
  apply (successful_report_shows_the_log rect_signed_distance demo_names unit
           demo_write_sheet demo_embed_images_ok
           (replicate 16 (demo_check box_near_road)) tt []).
  - vm_compute. discriminate.
  - reflexivity.
  - reflexivity.
Defined.

Lemma stop_run_witness :
  (script_run rect_signed_distance demo_names unit demo_write_sheet
     demo_embed_images_ok first_visit demo_stop_inputs).1
  = (Finished, [UiEvent (StWarning "No violations recorded yet.")]).
Proof.
  destruct (stop_run_only_reports rect_signed_distance demo_names unit
              demo_write_sheet demo_embed_images_ok first_visit demo_stop_inputs
              {| video_opened := true; video_frames := [demo_frame] |}
              eq_refl eq_refl eq_refl) as (_ & Hev & Hend).
  destruct (script_run _ _ _ _ _ _ _) as [[e evs] st]. simpl in *.
  by rewrite Hev, Hend.
Defined.
